(** * rustic.hpp: the error-handling module (Option, Result, panic, match)

    A shallow embedding of section 2 of [rustic.hpp] (the part guarded by
    [ENABLE_RS_ERROR]).  Objects live in a memory indexed by addresses, member
    functions take the address of [*this], and the references they hand out
    ([T&], [const T&], [T*]) are places inside that memory.  [std::abort],
    the exception of [std::get] and accesses outside an object's lifetime are
    outcomes of a small state-and-error monad. *)

From Stdlib Require Import Ascii String.
From stdpp Require Import gmap strings.

Set Default Proof Using "Type".

(** ** Outcomes and the machine *)

Definition addr := positive.

(** What can end a computation other than a normal return. *)
Inductive fault :=
| bad_variant_access   (* thrown by [std::get] on the wrong alternative *)
| invalid_access.      (* an access to storage that holds no such object *)

Inductive outcome (A : Type) :=
| Returns (a : A)
| Aborted              (* [std::abort()]: the process is gone *)
| Faults (f : fault).
Arguments Returns {A} a.
Arguments Aborted {A}.
Arguments Faults {A} f.

(** [std::variant<A, B>]: two alternatives, numbered 0 and 1.  Payloads are
    values whose copies and moves do not throw, so the state
    [valueless_by_exception] that a throwing assignment leaves behind is not
    among the states. *)
Inductive variant (A B : Type) :=
| in_place_index0 (a : A)
| in_place_index1 (b : B).
Arguments in_place_index0 {A B} a.
Arguments in_place_index1 {A B} b.

Definition index {A B} (v : variant A B) : nat :=
  match v with in_place_index0 _ => 0 | in_place_index1 _ => 1 end.

Inductive monostate := monostate_v.

(** The storage of alternative [alt] of the variant member [value] of the
    object at [base]. *)
Record place := Place { base : addr; alt : nat }.

Inductive qualifier := mut | const.

(** [X&] ([q = mut]) and [const X&] ([q = const]). *)
Record lvalue (q : qualifier) (X : Type) := Lvalue { place_of : place }.
Arguments Lvalue {q X} _.
Arguments place_of {q X} _.

(** [X*] and [const X*]. *)
Record pointer (q : qualifier) (X : Type) := Pointer { pointee : place }.
Arguments Pointer {q X} _.
Arguments pointee {q X} _.

(** The built-in [&r]. *)
Definition addressof {q X} (r : lvalue q X) : pointer q X :=
  Pointer (place_of r).

(** The two callables of a [match], by position. *)
Inductive slot := first_callable | second_callable.

#[global] Instance slot_eq_dec : EqDecision slot.
Proof. solve_decision. Defined.

(** One call made by [match]: which callable, and the arguments it got. *)
Record invocation := Invocation { callee : slot; arguments : list place }.

Section machine.
(** The class of the objects in memory. *)
Context {O : Type}.

(** What a callable can see and change: the diagnostic stream and the
    objects. *)
Record world := World { cerr : string; mem : gmap addr O }.

(** The machine adds the record of the calls made by [match]; a callable's
    body is a function of the [world] alone. *)
Record config := Config { the_world : world; calls : list invocation }.

Definition M (A : Type) : Type := config -> outcome A * config.
Definition body (R : Type) : Type := world -> outcome R * world.

Definition ret {A} (a : A) : M A := fun c => (Returns a, c).

Definition bind {A B} (m : M A) (k : A -> M B) : M B :=
  fun c =>
    match m c with
    | (Returns a, c') => k a c'
    | (Aborted, c') => (Aborted, c')
    | (Faults f, c') => (Faults f, c')
    end.

Definition raise {A} (f : fault) : M A := fun c => (Faults f, c).

(** The configuration after [s] went to [std::cerr], and the one with the
    object [o] at [a]. *)
Definition say (s : string) (c : config) : config :=
  Config (World (cerr (the_world c) +:+ s) (mem (the_world c))) (calls c).
Definition put (a : addr) (o : O) (c : config) : config :=
  Config (World (cerr (the_world c)) (<[a:=o]> (mem (the_world c)))) (calls c).

(** [std::cerr << s]. *)
Definition write_cerr (s : string) : M unit := fun c => (Returns tt, say s c).

(** [std::abort()]. *)
Definition abort {A} : M A := fun c => (Aborted, c).

(** Read the object at [a]. *)
Definition load (a : addr) : M O :=
  fun c =>
    match mem (the_world c) !! a with
    | Some o => (Returns o, c)
    | None => (Faults invalid_access, c)
    end.

(** Put a newly constructed object at [a]: the initialisation of a
    variable, or the materialisation of a temporary. *)
Definition construct (a : addr) (o : O) : M unit :=
  fun c => (Returns tt, put a o c).

(** Overwrite the live object at [a]. *)
Definition overwrite (a : addr) (o : O) : M unit :=
  fun c =>
    match mem (the_world c) !! a with
    | Some _ => (Returns tt, put a o c)
    | None => (Faults invalid_access, c)
    end.

(** Call a callable: note the call, then run its body on the world. *)
Definition invoke {R} (s : slot) (args : list place) (f : body R) : M R :=
  fun c =>
    let (r, w') := f (the_world c) in
    (r, Config w' (calls c ++ [Invocation s args])).

(** How often [match] called the callable in slot [s]. *)
Definition times_called (s : slot) (l : list invocation) : nat :=
  length (filter (fun i => callee i = s) l).
End machine.

Arguments world : clear implicits.
Arguments config : clear implicits.
Arguments M : clear implicits.
Arguments body : clear implicits.

Declare Scope cpp_scope.
Delimit Scope cpp_scope with cpp.
Notation "x <- m ;; k" := (bind m (fun x => k))
  (at level 20, m at level 99, k at level 200) : cpp_scope.
Notation "m ;; k" := (bind m (fun _ => k))
  (at level 100, k at level 200, right associativity) : cpp_scope.
Open Scope cpp_scope.

(** ** The panic handler *)

(** What [std::endl] puts on the stream: a line feed. *)
Definition endl : string := String "010"%char "".

Section panic.
Context {O : Type}.

(** [rs_panic]: the message goes to [std::cerr] between ["[Panic] "] and
    [std::endl], then [std::abort()]. *)
Definition rs_panic (msg : string) : M O unit :=
  write_cerr ("[Panic] " +:+ msg +:+ endl) ;;
  abort.

Definition panic (msg : string) : M O unit := rs_panic msg.
End panic.

(** ** Access to the variant member of an object *)

Section variant_member.
Context {O A B : Type}.
(** The member [value] of the class, and the class rebuilt around it. *)
Variable member : O -> variant A B.
Variable with_member : variant A B -> O.

(** [std::holds_alternative<X>(value)], [X] being alternative [i]; also
    [value.index() == i]. *)
Definition holds_alternative (i : nat) (this : addr) : M O bool :=
  o <- load this ;;
  ret (index (member o) =? i).

(** [std::get] applied to the member, as the reference it returns. *)
Definition get {q X} (i : nat) (this : addr) : M O (lvalue q X) :=
  o <- load this ;;
  if index (member o) =? i then ret (Lvalue (Place this i))
  else raise bad_variant_access.

(** Reading through a reference to alternative 0, or to alternative 1. *)
Definition read0 {q} (r : lvalue q A) : M O A :=
  o <- load (base (place_of r)) ;;
  match alt (place_of r), member o with
  | 0, in_place_index0 a => ret a
  | _, _ => raise invalid_access
  end.

Definition read1 {q} (r : lvalue q B) : M O B :=
  o <- load (base (place_of r)) ;;
  match alt (place_of r), member o with
  | 1, in_place_index1 b => ret b
  | _, _ => raise invalid_access
  end.

(** Assigning through a non-const reference: [r = x]. *)
Definition write0 (r : lvalue mut A) (x : A) : M O unit :=
  o <- load (base (place_of r)) ;;
  match alt (place_of r), member o with
  | 0, in_place_index0 _ =>
      overwrite (base (place_of r)) (with_member (in_place_index0 x))
  | _, _ => raise invalid_access
  end.

Definition write1 (r : lvalue mut B) (x : B) : M O unit :=
  o <- load (base (place_of r)) ;;
  match alt (place_of r), member o with
  | 1, in_place_index1 _ =>
      overwrite (base (place_of r)) (with_member (in_place_index1 x))
  | _, _ => raise invalid_access
  end.
End variant_member.

(** ** Callables *)

(** A callable object as [match] sees it: the ways it can be called.
    [unary] is there when it can be called with a [const X&]
    ([std::is_invocable_v<F, const X&>]), [nullary] when it can be called
    with no argument. *)
Record callable (O X R : Type) := Callable {
  unary : option (lvalue const X -> body O R);
  nullary : option (body O R)
}.
Arguments Callable {O X R} _ _.
Arguments unary {O X R} _.
Arguments nullary {O X R} _.

(** [Case(v){...}] is [[&](auto&& v){...}], [DefaultCase(){...}] is
    [[&](){...}]. *)
Definition Case {O X R} (f : lvalue const X -> body O R) : callable O X R :=
  Callable (Some f) None.
Definition DefaultCase {O X R} (f : body O R) : callable O X R :=
  Callable None (Some f).

(** ** Unit *)

Inductive Unit : Set := Unit_v.

Definition Unit_eq (_ _ : Unit) : bool := true.
Definition Unit_ne (_ _ : Unit) : bool := false.

(** ** Option *)

Record Option (T : Type) := mkOption { Option_value : variant monostate T }.
Arguments mkOption {T} _.
Arguments Option_value {T} _.

Section Option.
Context {T : Type}.

Local Abbreviation M := (M (Option T)).

(** The four constructors: default, from [std::monostate], from
    [const T&], from [T&&]. *)
Definition Option_default : Option T := mkOption (in_place_index0 monostate_v).
Definition Option_of_monostate (_ : monostate) : Option T :=
  mkOption (in_place_index0 monostate_v).
Definition Option_of_const_ref (val : T) : Option T := mkOption (in_place_index1 val).
Definition Option_of_rvalue (val : T) : Option T := mkOption (in_place_index1 val).

(** The static members [Some] (two overloads) and [None]. *)
Definition Option_Some_rvalue (val : T) : Option T := Option_of_rvalue val.
Definition Option_Some_const_ref (val : T) : Option T := Option_of_const_ref val.
Definition Option_None : Option T := Option_default.

Definition is_some (this : addr) : M bool :=
  holds_alternative Option_value 1 this.
Definition is_none (this : addr) : M bool :=
  holds_alternative Option_value 0 this.
Definition Option_operator_bool (this : addr) : M bool := is_some this.

(** [std::get<T>(value)]. *)
Definition Option_get {q} (this : addr) : M (lvalue q T) :=
  get Option_value 1 this.

Definition Option_unwrap (this : addr) : M (lvalue mut T) :=
  b <- is_none this ;;
  (if b : bool then rs_panic "called `Option::unwrap()` on a `None` value"
   else ret tt) ;;
  Option_get this.

Definition Option_unwrap_const (this : addr) : M (lvalue const T) :=
  b <- is_none this ;;
  (if b : bool then rs_panic "called `Option::unwrap()` on a `None` value"
   else ret tt) ;;
  Option_get this.

Definition Option_expect (this : addr) (msg : string) : M (lvalue mut T) :=
  b <- is_none this ;;
  (if b : bool then rs_panic msg else ret tt) ;;
  Option_get this.

(** Reading and assigning through a reference to the payload. *)
Definition Option_read {q} (r : lvalue q T) : M T := read1 Option_value r.
Definition Option_write (r : lvalue mut T) (x : T) : M unit :=
  write1 Option_value mkOption r x.

Definition unwrap_or (this : addr) (def : T) : M T :=
  b <- is_some this ;;
  if b : bool then r <- Option_get (q:=const) this ;; Option_read r
  else ret def.

(** Pointer semantics. *)
Definition Option_operator_arrow (this : addr) : M (pointer mut T) :=
  r <- Option_unwrap this ;; ret (addressof r).
Definition Option_operator_arrow_const (this : addr) : M (pointer const T) :=
  r <- Option_unwrap_const this ;; ret (addressof r).
Definition Option_operator_star (this : addr) : M (lvalue mut T) :=
  Option_unwrap this.
Definition Option_operator_star_const (this : addr) : M (lvalue const T) :=
  Option_unwrap_const this.

(** [match]: a template, so the callables' shapes are settled when it is
    instantiated; [None] is the instantiation that does not compile.  The
    first callable is called with the value when it can be, with nothing
    otherwise; the call of the second with nothing is always compiled. *)
Definition Option_match {R} (f_some f_none : callable (Option T) T R)
  : option (addr -> M R) :=
  match nullary f_none with
  | None => None
  | Some g_none =>
      match unary f_some with
      | Some g_some =>   (* [std::is_invocable_v<F1, const T&>] *)
          Some (fun this =>
            b <- is_some this ;;
            if b : bool then
              r <- Option_get this ;;
              invoke first_callable [place_of r] (g_some r)
            else invoke second_callable [] g_none)
      | None =>
          match nullary f_some with
          | None => None
          | Some g_some =>
              Some (fun this =>
                b <- is_some this ;;
                if b : bool then invoke first_callable [] g_some
                else invoke second_callable [] g_none)
          end
      end
  end.

(** The assignment of a whole container, [x = o]. *)
Definition Option_assign (this : addr) (o : Option T) : M unit :=
  overwrite this o.
End Option.

(** ** Result *)

Record OkValue (T : Type) := mkOkValue { OkValue_value : T }.
Arguments mkOkValue {T} _.
Arguments OkValue_value {T} _.

Record ErrValue (E : Type) := mkErrValue { error : E }.
Arguments mkErrValue {E} _.
Arguments error {E} _.

Record Result (T E : Type) := mkResult { Result_value : variant T E }.
Arguments mkResult {T E} _.
Arguments Result_value {T E} _.

Section Result.
Context {T E : Type}.

Local Abbreviation M := (M (Result T E)).

(** The constructors from [const T&], [T&&], [const E&] and [E&&]. *)
Definition Result_of_T_const_ref (val : T) : Result T E := mkResult (in_place_index0 val).
Definition Result_of_T_rvalue (val : T) : Result T E := mkResult (in_place_index0 val).
Definition Result_of_E_const_ref (err : E) : Result T E := mkResult (in_place_index1 err).
Definition Result_of_E_rvalue (err : E) : Result T E := mkResult (in_place_index1 err).

(** The converting constructors, templates over the wrapped type [U]:
    the payload is built in place from the wrapped value, by the
    constructor of [T] (of [E]) that takes a [U&&], here [init]. *)
Definition Result_of_OkValue {U} (init : U -> T) (ok : OkValue U) : Result T E :=
  mkResult (in_place_index0 (init (OkValue_value ok))).
Definition Result_of_ErrValue {U} (init : U -> E) (err : ErrValue U) : Result T E :=
  mkResult (in_place_index1 (init (error err))).

Definition is_ok (this : addr) : M bool :=
  holds_alternative Result_value 0 this.
Definition is_err (this : addr) : M bool :=
  holds_alternative Result_value 1 this.
Definition Result_operator_bool (this : addr) : M bool := is_ok this.

(** [std::get<0>(value)] and [std::get<1>(value)]. *)
Definition Result_get0 {q} (this : addr) : M (lvalue q T) :=
  get Result_value 0 this.
Definition Result_get1 {q} (this : addr) : M (lvalue q E) :=
  get Result_value 1 this.

Definition Result_unwrap (this : addr) : M (lvalue mut T) :=
  b <- is_err this ;;
  (if b : bool then rs_panic "called `Result::unwrap()` on an `Err` value"
   else ret tt) ;;
  Result_get0 this.

Definition Result_unwrap_const (this : addr) : M (lvalue const T) :=
  b <- is_err this ;;
  (if b : bool then rs_panic "called `Result::unwrap()` on an `Err` value"
   else ret tt) ;;
  Result_get0 this.

Definition Result_expect (this : addr) (msg : string) : M (lvalue mut T) :=
  b <- is_err this ;;
  (if b : bool then rs_panic msg else ret tt) ;;
  Result_get0 this.

Definition unwrap_err (this : addr) : M (lvalue mut E) :=
  b <- is_ok this ;;
  (if b : bool then rs_panic "called `Result::unwrap_err()` on an `Ok` value"
   else ret tt) ;;
  Result_get1 this.

(** Reading and assigning through a reference to a payload. *)
Definition Result_read {q} (r : lvalue q T) : M T := read0 Result_value r.
Definition Result_read_err {q} (r : lvalue q E) : M E := read1 Result_value r.
Definition Result_write (r : lvalue mut T) (x : T) : M unit :=
  write0 Result_value mkResult r x.
Definition Result_write_err (r : lvalue mut E) (x : E) : M unit :=
  write1 Result_value mkResult r x.

(** Pointer semantics. *)
Definition Result_operator_arrow (this : addr) : M (pointer mut T) :=
  r <- Result_unwrap this ;; ret (addressof r).
Definition Result_operator_arrow_const (this : addr) : M (pointer const T) :=
  r <- Result_unwrap_const this ;; ret (addressof r).
Definition Result_operator_star (this : addr) : M (lvalue mut T) :=
  Result_unwrap this.
Definition Result_operator_star_const (this : addr) : M (lvalue const T) :=
  Result_unwrap_const this.

(** [match]: both callables are called with the payload, so both must
    accept one. *)
Definition Result_match {R} (f_ok : callable (Result T E) T R)
    (f_err : callable (Result T E) E R) : option (addr -> M R) :=
  match unary f_ok, unary f_err with
  | Some g_ok, Some g_err =>
      Some (fun this =>
        b <- is_ok this ;;
        if b : bool then
          r <- Result_get0 this ;;
          invoke first_callable [place_of r] (g_ok r)
        else
          r <- Result_get1 this ;;
          invoke second_callable [place_of r] (g_err r))
  | _, _ => None
  end.

(** The assignment of a whole container, [x = o]. *)
Definition Result_assign (this : addr) (o : Result T E) : M unit :=
  overwrite this o.
End Result.

(** ** Factories *)

Definition Some_ {T} (v : T) : Option T := Option_of_rvalue v.
Definition None_ : monostate := monostate_v.

Definition Ok {T} (v : T) : OkValue T := mkOkValue v.
Definition Ok_unit : OkValue Unit := mkOkValue Unit_v.
Definition Err {E} (e : E) : ErrValue E := mkErrValue e.

(** ** Observations used in the statements *)

(** [contains needle hay]: [needle] occurs somewhere in [hay]. *)
Fixpoint contains (needle hay : string) : bool :=
  String.prefix needle hay
  || match hay with
     | EmptyString => false
     | String _ rest => contains needle rest
     end.

(** The line [rs_panic] leaves on [std::cerr]. *)
Definition diagnostic (msg : string) : string := "[Panic] " +:+ msg +:+ endl.

(** The messages of the three panicking accessors. *)
Definition Option_unwrap_message : string :=
  "called `Option::unwrap()` on a `None` value".
Definition Result_unwrap_message : string :=
  "called `Result::unwrap()` on an `Err` value".
Definition Result_unwrap_err_message : string :=
  "called `Result::unwrap_err()` on an `Ok` value".

(** A computation that writes to no object, and that leaves everything as it
    was when it returns. *)
Definition frame {O A} (m : M O A) : Prop :=
  forall c,
    mem (the_world (snd (m c))) = mem (the_world c)
    /\ (forall a, fst (m c) = Returns a -> snd (m c) = c).

(** The same for the body of a callable, and for a callable. *)
Definition body_frame {O R} (f : body O R) : Prop :=
  forall w, mem (snd (f w)) = mem w.

Definition callable_frame {O X R} (f : callable O X R) : Prop :=
  (forall g, unary f = Some g -> forall r, body_frame (g r))
  /\ (forall g, nullary f = Some g -> body_frame g).

Definition outcome_map {A B} (f : A -> B) (r : outcome A) : outcome B :=
  match r with
  | Returns a => Returns (f a)
  | Aborted => Aborted
  | Faults e => Faults e
  end.

(** The ways an [Option<T>] comes into being: one per constructor. *)
Inductive Option_construction (T : Type) :=
| by_default
| by_monostate (m : monostate)
| by_const_ref (val : T)
| by_rvalue (val : T).
Arguments by_default {T}.
Arguments by_monostate {T} m.
Arguments by_const_ref {T} val.
Arguments by_rvalue {T} val.

Definition Option_constructed {T} (p : Option_construction T) : Option T :=
  match p with
  | by_default => Option_default
  | by_monostate m => Option_of_monostate m
  | by_const_ref val => Option_of_const_ref val
  | by_rvalue val => Option_of_rvalue val
  end.

(** The alternative a way of construction leads to, whatever it carries. *)
Definition alternative_of_construction {T} (p : Option_construction T) : nat :=
  match p with
  | by_default | by_monostate _ => 0
  | by_const_ref _ | by_rvalue _ => 1
  end.

(** ** The lookup of sample.cpp and the objects of the examples *)

(** The body of a lambda written with the member functions: it runs on the
    world, and the calls it makes are its own affair. *)
Definition as_body {O R} (m : M O R) : body O R :=
  fun w => let (r, c) := m (Config w []) in (r, the_world c).

(** [find_user]: the index of the first name equal to [target], from index
    [i] on; when there is none, the tag of [None()] converted to the return
    type. *)
Fixpoint find_user_from (i : nat) (names : list string) (target : string)
  : Option nat :=
  match names with
  | [] => Option_of_monostate None_
  | name :: rest =>
      if String.eqb name target then Some_ i
      else find_user_from (S i) rest target
  end.

Definition find_user (names : list string) (target : string) : Option nat :=
  find_user_from 0 names target.

Definition users : list string := ["alice"; "bob"; "carol"].

(** A world with nothing on [std::cerr] and the result of a lookup at address
    1; a world with a [Result<nat, string>] there. *)
Definition looked_up (target : string) : config (Option nat) :=
  Config (World "" {[1%positive := find_user users target]}) [].

Definition holding (o : Result nat string) : config (Result nat string) :=
  Config (World "" {[1%positive := o]}) [].

(** Callables in the manner of sample.cpp: [Case(idx){ return idx + 1; }]
    and [DefaultCase(){ return 0; }] for a lookup, [Case(val)] and
    [Case(err)] for a [Result]. *)
Definition found_at_next : callable (Option nat) nat nat :=
  Case (fun idx => as_body (i <- Option_read idx ;; ret (S i))).
Definition not_found : callable (Option nat) nat nat :=
  DefaultCase (as_body (ret 0)).
Definition doubled : callable (Result nat string) nat nat :=
  Case (fun val => as_body (x <- Result_read val ;; ret (2 * x))).
Definition text_length : callable (Result nat string) string nat :=
  Case (fun err => as_body (e <- Result_read_err err ;; ret (String.length e))).

(** Callables that touch nothing. *)
Definition constantly {O X} (n : nat) : callable O X nat :=
  Callable (Some (fun _ w => (Returns n, w))) (Some (fun w => (Returns n, w))).

(** ** The division of sample.cpp *)

Section divide.
(** [f32], the conversion [static_cast<f32>] from [i32] and the division of
    two [f32] are the machine's; [divide] only passes values through them. *)
Variable f32 : Type.
Variable f32_of_i32 : Z -> f32.
Variable f32_div : f32 -> f32 -> f32.

Definition divide (a b : Z) : Result f32 string :=
  if (b =? 0)%Z then Result_of_ErrValue (fun x => x) (Err "divide by zero")
  else Result_of_OkValue (fun x => x) (Ok (f32_div (f32_of_i32 a) (f32_of_i32 b))).
End divide.

(** A stand-in for [f32] in the examples: a quotient kept as the pair of its
    operands. *)
Definition unevaluated : Type := Z * Z.
Definition divide_unevaluated : Z -> Z -> Result unevaluated string :=
  divide unevaluated (fun z => (z, 1%Z)) (fun x y => (fst x, fst y)).

Definition numerator : callable (Result unevaluated string) unevaluated Z :=
  Case (fun val => as_body (x <- Result_read val ;; ret (fst x))).
Definition minus_one : callable (Result unevaluated string) string Z :=
  Case (fun err => as_body (ret (-1)%Z)).

(** A world with nothing on [std::cerr] and the result of a division at
    address 1. *)
Definition divided (a b : Z) : config (Result unevaluated string) :=
  Config (World "" {[1%positive := divide_unevaluated a b]}) [].

(** What one run of the body [g] makes of the configuration [c], noted as a
    call of the callable in slot [s] with the arguments [args]: the outcome
    of [g] on the world of [c], the world it leaves, and one more call on
    record. *)
Definition one_call {O R} (s : slot) (args : list place) (g : body O R)
    (c : config O) : outcome R * config O :=
  (fst (g (the_world c)),
   Config (snd (g (the_world c))) (calls c ++ [Invocation s args])).

(** A first callable that takes no argument, [DefaultCase(){ return 100; }],
    and one that can be called both ways and tells which way it was. *)
Definition found_somewhere : callable (Option nat) nat nat :=
  DefaultCase (as_body (ret 100)).
Definition either_way : callable (Option nat) nat nat :=
  Callable (Some (fun idx => as_body (i <- Option_read idx ;; ret (10 + i))))
           (Some (as_body (ret 20))).

(** * Properties *)

(** ** Running the machine on a live object *)

Section machine_facts.
Context {O : Type}.
Implicit Types (c : config O) (o : O) (this : addr).

Lemma load_live this c o :
  mem (the_world c) !! this = Some o -> load this c = (Returns o, c).
Proof. intros H. unfold load. rewrite H. reflexivity. Qed.

Lemma lookup_put this o c : mem (the_world (put this o c)) !! this = Some o.
Proof. unfold put. cbn. apply lookup_insert_eq. Qed.

Lemma construct_then {X} this o (k : M O X) c :
  (construct this o ;; k) c = k (put this o c).
Proof. reflexivity. Qed.

Lemma bind_returns {X Y} (m : M O X) (k : X -> M O Y) c x c' :
  m c = (Returns x, c') -> (y <- m ;; k y) c = k x c'.
Proof. intros H. unfold bind. rewrite H. reflexivity. Qed.

Lemma times_called_app s (l : list invocation) i :
  times_called s (l ++ [i])
  = times_called s l + (if decide (callee i = s) then 1 else 0).
Proof.
  unfold times_called. rewrite filter_app, length_app. f_equal.
  cbn. unfold filter. cbn. destruct (decide_rel _ _ _); try reflexivity.
  all: destruct (decide (callee i = s)); try reflexivity; contradiction.
Qed.
End machine_facts.

(** Unfold a member function down to the machine's primitives and read the
    object that [H] puts at [this]. *)
Ltac run_on H :=
  unfold Option_operator_star, Option_operator_star_const,
    Option_operator_arrow, Option_operator_arrow_const, Option_operator_bool,
    Result_operator_star, Result_operator_star_const,
    Result_operator_arrow, Result_operator_arrow_const, Result_operator_bool;
  unfold Option_unwrap, Option_unwrap_const, Option_expect, unwrap_or,
    is_some, is_none, Option_get, Option_read, Option_write, Option_assign,
    Result_unwrap, Result_unwrap_const, Result_expect, unwrap_err,
    is_ok, is_err, Result_get0, Result_get1, Result_read, Result_read_err,
    Result_write, Result_write_err, Result_assign,
    rs_panic, holds_alternative, get, read0, read1, write0, write1,
    invoke, overwrite, write_cerr, abort, raise, load, bind, ret;
  cbn; repeat (rewrite H; cbn).

(** ** Option: what each member function does in each state *)

Section Option_facts.
Context {T : Type}.
Implicit Types (this : addr) (c : config (Option T)) (v d : T) (o : Option T).

Lemma Option_present_run v this c :
  mem (the_world c) !! this = Some (mkOption (in_place_index1 v)) ->
  is_some this c = (Returns true, c)
  /\ is_none this c = (Returns false, c)
  /\ Option_unwrap this c = (Returns (Lvalue (Place this 1)), c)
  /\ Option_unwrap_const this c = (Returns (Lvalue (Place this 1)), c)
  /\ (forall q, Option_read (q:=q) (Lvalue (Place this 1)) c = (Returns v, c))
  /\ (forall d, unwrap_or this d c = (Returns v, c)).
Proof. intros H. repeat split; intros; run_on H; reflexivity. Qed.

Lemma Option_absent_run m this c :
  mem (the_world c) !! this = Some (mkOption (in_place_index0 m)) ->
  is_some this c = (Returns false, c)
  /\ is_none this c = (Returns true, c)
  /\ Option_unwrap this c = (Aborted, say (diagnostic Option_unwrap_message) c)
  /\ Option_unwrap_const this c = (Aborted, say (diagnostic Option_unwrap_message) c)
  /\ (forall d, unwrap_or this d c = (Returns d, c)).
Proof. intros H. repeat split; intros; run_on H; reflexivity. Qed.

End Option_facts.

Section Option_claims.
Context {T : Type}.
Implicit Types (this : addr) (c : config (Option T)) (v d : T) (o : Option T).

(** C4. Whatever the value [v], the container made by [Some(v)], by either
    overload of [Option::Some], answers [is_some() = true] and
    [is_none() = false], and reading what [unwrap()] refers to gives back
    [v]; the container made by [Option::None()] or from the tag of [None()]
    answers [is_none() = true]. *)
Theorem Some_None_roundtrip v this c :
  Forall (fun o =>
      (construct this o ;; is_some this) c = (Returns true, put this o c)
      /\ (construct this o ;; is_none this) c = (Returns false, put this o c)
      /\ (construct this o ;; r <- Option_unwrap this ;; Option_read r) c
         = (Returns v, put this o c))
    [Some_ v; Option_Some_rvalue v; Option_Some_const_ref v]
  /\ Forall (fun o =>
      (construct this o ;; is_none this) c = (Returns true, put this o c))
    [Option_None; Option_of_monostate None_].
Proof.
  destruct (Option_present_run v this _ (lookup_put this (Some_ v) c))
    as (Hs & Hn & Hu & _ & Hr & _).
  destruct (Option_absent_run monostate_v this _ (lookup_put this Option_None c))
    as (_ & Hn' & _).
  split; repeat constructor; rewrite ?construct_then; try assumption.
  all: rewrite (bind_returns _ _ _ _ _ Hu); apply Hr.
Qed.

(** C1, as the code has it. On a container that holds no value, [unwrap()]
    (either overload) does not return: it leaves the line
    ["[Panic] called `Option::unwrap()` on a `None` value"] on [std::cerr],
    a line that contains ["None"], and aborts. On a container that holds
    [v] it returns, changing nothing, a reference to the payload, through
    which [v] is read. *)
Theorem Option_unwrap_contract this c o :
  mem (the_world c) !! this = Some o ->
  (index (Option_value o) = 0 ->
     Option_unwrap this c
     = (Aborted, say (diagnostic "called `Option::unwrap()` on a `None` value") c)
     /\ Option_unwrap_const this c
        = (Aborted, say (diagnostic "called `Option::unwrap()` on a `None` value") c)
     /\ contains "None" (diagnostic "called `Option::unwrap()` on a `None` value") = true)
  /\ (forall v, Option_value o = in_place_index1 v ->
        Option_unwrap this c = (Returns (Lvalue (Place this 1)), c)
        /\ Option_unwrap_const this c = (Returns (Lvalue (Place this 1)), c)
        /\ (r <- Option_unwrap this ;; Option_read r) c = (Returns v, c)
        /\ (r <- Option_unwrap_const this ;; Option_read r) c = (Returns v, c)).
Proof.
  intros H. destruct o as [[m|x]]; split; cbn; try discriminate.
  - intros _. destruct (Option_absent_run m this c H) as (_ & _ & Hu & Hc & _).
    repeat split; assumption || reflexivity.
  - intros v [= <-].
    destruct (Option_present_run x this c H) as (_ & _ & Hu & Hc & Hr & _).
    repeat split; try assumption.
    + rewrite (bind_returns _ _ _ _ _ Hu). apply Hr.
    + rewrite (bind_returns _ _ _ _ _ Hc). apply Hr.
Qed.

(** C7. Whatever [v] and [d]: [unwrap_or(d)] on the container made by
    [Some(v)] returns [v], on the container made from [None()] it returns
    [d]; and on any container at all it returns, with nothing written to
    [std::cerr] and no object changed. *)
Theorem unwrap_or_total v d this c :
  (construct this (Some_ v) ;; unwrap_or this d) c
  = (Returns v, put this (Some_ v) c)
  /\ (construct this (Option_of_monostate None_) ;; unwrap_or this d) c
     = (Returns d, put this (Option_of_monostate None_) c)
  /\ (forall o,
        (construct this o ;; unwrap_or this d) c
        = (Returns (match Option_value o with
                    | in_place_index1 x => x
                    | in_place_index0 _ => d
                    end), put this o c)).
Proof.
  assert (Hall : forall o,
    (construct this o ;; unwrap_or this d) c
    = (Returns (match Option_value o with
                | in_place_index1 x => x
                | in_place_index0 _ => d
                end), put this o c)).
  { intros [[m|x]]; rewrite construct_then; cbn.
    - apply (Option_absent_run m this _ (lookup_put this _ c)).
    - apply (Option_present_run x this _ (lookup_put this _ c)). }
  repeat split; try apply Hall.
Qed.

(** C10. Whatever the type [T]: the constructors from a plain value
    ([const T&] and [T&&]) make a container that holds that value; the tag
    that [None()] returns, a [std::monostate] that mentions no [T], makes
    an empty container; and the alternative a constructor leads to
    depends on the constructor alone, not on what it is given. *)
Theorem Option_construction_paths v this c :
  Forall (fun o =>
      (construct this o ;; is_some this) c = (Returns true, put this o c)
      /\ (construct this o ;; r <- Option_unwrap this ;; Option_read r) c
         = (Returns v, put this o c))
    [Option_of_const_ref v; Option_of_rvalue v]
  /\ ((construct this (Option_of_monostate None_) ;; is_none this) c
      = (Returns true, put this (Option_of_monostate None_) c)
      /\ (construct this (Option_of_monostate None_) ;; is_some this) c
         = (Returns false, put this (Option_of_monostate None_) c))
  /\ (forall p : Option_construction T,
        index (Option_value (Option_constructed p))
        = alternative_of_construction p).
Proof.
  destruct (Option_present_run v this _ (lookup_put this (Some_ v) c))
    as (Hs & _ & Hu & _ & Hr & _).
  destruct (Option_absent_run monostate_v this _ (lookup_put this Option_None c))
    as (Hs' & Hn' & _).
  repeat split; repeat constructor; rewrite ?construct_then; try assumption.
  1,2: rewrite (bind_returns _ _ _ _ _ Hu); apply Hr.
  intros []; reflexivity.
Qed.
End Option_claims.

(** ** Result: what each member function does in each state *)

Section Result_facts.
Context {T E : Type}.
Implicit Types (this : addr) (c : config (Result T E)) (v : T) (e : E).

Lemma Result_ok_run v this c :
  mem (the_world c) !! this = Some (mkResult (in_place_index0 v)) ->
  is_ok this c = (Returns true, c)
  /\ is_err this c = (Returns false, c)
  /\ Result_unwrap this c = (Returns (Lvalue (Place this 0)), c)
  /\ Result_unwrap_const this c = (Returns (Lvalue (Place this 0)), c)
  /\ unwrap_err this c = (Aborted, say (diagnostic Result_unwrap_err_message) c)
  /\ (forall q, Result_read (q:=q) (Lvalue (Place this 0)) c = (Returns v, c)).
Proof. intros H. repeat split; intros; run_on H; reflexivity. Qed.

Lemma Result_err_run e this c :
  mem (the_world c) !! this = Some (mkResult (in_place_index1 e)) ->
  is_ok this c = (Returns false, c)
  /\ is_err this c = (Returns true, c)
  /\ Result_unwrap this c = (Aborted, say (diagnostic Result_unwrap_message) c)
  /\ Result_unwrap_const this c = (Aborted, say (diagnostic Result_unwrap_message) c)
  /\ unwrap_err this c = (Returns (Lvalue (Place this 1)), c)
  /\ (forall q, Result_read_err (q:=q) (Lvalue (Place this 1)) c = (Returns e, c)).
Proof. intros H. repeat split; intros; run_on H; reflexivity. Qed.
End Result_facts.

Section Result_claims.
Context {T E : Type}.
Implicit Types (this : addr) (c : config (Result T E)) (v : T) (e : E)
  (o : Result T E).

(** C2, as the code has it. On a container that holds an error, [unwrap()]
    (either overload) does not return: it leaves the line
    ["[Panic] called `Result::unwrap()` on an `Err` value"] on [std::cerr]
    and aborts. On a container that holds a value, [unwrap_err()] does not
    return: it leaves
    ["[Panic] called `Result::unwrap_err()` on an `Ok` value"] and aborts.
    In the matching state each returns, changing nothing, a reference to
    the payload, through which the payload is read. *)
Theorem Result_unwrap_contract this c o :
  mem (the_world c) !! this = Some o ->
  (forall e, Result_value o = in_place_index1 e ->
     Result_unwrap this c
     = (Aborted, say (diagnostic "called `Result::unwrap()` on an `Err` value") c)
     /\ Result_unwrap_const this c
        = (Aborted, say (diagnostic "called `Result::unwrap()` on an `Err` value") c)
     /\ unwrap_err this c = (Returns (Lvalue (Place this 1)), c)
     /\ (r <- unwrap_err this ;; Result_read_err r) c = (Returns e, c))
  /\ (forall v, Result_value o = in_place_index0 v ->
        unwrap_err this c
        = (Aborted, say (diagnostic "called `Result::unwrap_err()` on an `Ok` value") c)
        /\ Result_unwrap this c = (Returns (Lvalue (Place this 0)), c)
        /\ Result_unwrap_const this c = (Returns (Lvalue (Place this 0)), c)
        /\ (r <- Result_unwrap this ;; Result_read r) c = (Returns v, c)
        /\ (r <- Result_unwrap_const this ;; Result_read r) c = (Returns v, c)).
Proof.
  intros H. destruct o as [[x|x]]; split; cbn; try discriminate.
  - intros v [= <-].
    destruct (Result_ok_run x this c H) as (_ & _ & Hu & Hc & He & Hr).
    repeat split; try assumption.
    + rewrite (bind_returns _ _ _ _ _ Hu). apply Hr.
    + rewrite (bind_returns _ _ _ _ _ Hc). apply Hr.
  - intros e [= <-].
    destruct (Result_err_run x this c H) as (_ & _ & Hu & Hc & He & Hr).
    repeat split; try assumption.
    rewrite (bind_returns _ _ _ _ _ He). apply Hr.
Qed.

(** With a wrapped value of another type [U], what the container holds is
    what the constructor of [T] makes of it. *)
Lemma OkValue_conversion_builds {U} (init : U -> T) (u : U) this c :
  (construct this (Result_of_OkValue init (Ok u)) ;;
   r <- Result_unwrap this ;; Result_read r) c
  = (Returns (init u), put this (Result_of_OkValue init (Ok u)) c).
Proof.
  destruct (Result_ok_run (init u) this _
              (lookup_put this (Result_of_OkValue init (Ok u)) c))
    as (_ & _ & Hu & _ & _ & Hr).
  rewrite construct_then, (bind_returns _ _ _ _ _ Hu). apply Hr.
Qed.

(** C3. Whatever [v] and [e]: the container converted from [Ok(v)] answers
    [is_ok() = true] and reading what [unwrap()] refers to gives [v]; the
    container converted from [Err(e)] answers [is_err() = true] and reading
    what [unwrap_err()] refers to gives [e]. *)
Theorem Ok_Err_conversion v e this c :
  let ok : Result T E := Result_of_OkValue (fun x => x) (Ok v) in
  let err : Result T E := Result_of_ErrValue (fun x => x) (Err e) in
  (construct this ok ;; is_ok this) c = (Returns true, put this ok c)
  /\ (construct this ok ;; r <- Result_unwrap this ;; Result_read r) c
     = (Returns v, put this ok c)
  /\ (construct this err ;; is_err this) c = (Returns true, put this err c)
  /\ (construct this err ;; r <- unwrap_err this ;; Result_read_err r) c
     = (Returns e, put this err c).
Proof.
  intros ok err.
  destruct (Result_ok_run v this _ (lookup_put this ok c))
    as (Ho & _ & Hu & _ & _ & Hr).
  destruct (Result_err_run e this _ (lookup_put this err c))
    as (_ & He & _ & _ & Hue & Hre).
  repeat split; rewrite construct_then; try assumption.
  - rewrite (bind_returns _ _ _ _ _ Hu). apply Hr.
  - rewrite (bind_returns _ _ _ _ _ Hue). apply Hre.
Qed.
End Result_claims.

(** ** match *)

Section match_facts.
Context {T E R : Type}.

Lemma invoke_run {O} s args (f : body O R) (c : config O) :
  invoke s args f c
  = (fst (f (the_world c)),
     Config (snd (f (the_world c))) (calls c ++ [Invocation s args])).
Proof. unfold invoke. destruct (f (the_world c)). reflexivity. Qed.

(** Which call [Option::match] makes, by the state of the container and
    the shape of the first callable. *)
Lemma Option_match_run (f_some f_none : callable (Option T) T R) m this c o :
  Option_match f_some f_none = Some m ->
  mem (the_world c) !! this = Some o ->
  exists g_none, nullary f_none = Some g_none /\
    match Option_value o, unary f_some, nullary f_some with
    | in_place_index1 _, Some g, _ =>
        m this c
        = invoke first_callable [Place this 1] (g (Lvalue (Place this 1))) c
    | in_place_index1 _, None, Some g =>
        m this c = invoke first_callable [] g c
    | in_place_index1 _, None, None => False
    | in_place_index0 _, _, _ =>
        m this c = invoke second_callable [] g_none c
    end.
Proof.
  unfold Option_match. intros Hm H.
  destruct (nullary f_none) as [g_none|]; [|discriminate].
  exists g_none. split; [reflexivity|].
  destruct o as [[u|v]]; cbn;
    destruct (unary f_some) as [g1|]; [| destruct (nullary f_some) as [g0|] | |].
  all: try discriminate.
  all: try (destruct (nullary f_some) as [g0|]; try discriminate).
  all: injection Hm as <-; unfold is_some, Option_get, holds_alternative, get, bind, ret;
    rewrite ?(load_live _ _ _ H); cbn; rewrite ?(load_live _ _ _ H); reflexivity.
Qed.

Lemma Result_match_run (f_ok : callable (Result T E) T R)
    (f_err : callable (Result T E) E R) m this c o :
  Result_match f_ok f_err = Some m ->
  mem (the_world c) !! this = Some o ->
  exists g_ok g_err, unary f_ok = Some g_ok /\ unary f_err = Some g_err /\
    match Result_value o with
    | in_place_index0 _ =>
        m this c
        = invoke first_callable [Place this 0] (g_ok (Lvalue (Place this 0))) c
    | in_place_index1 _ =>
        m this c
        = invoke second_callable [Place this 1] (g_err (Lvalue (Place this 1))) c
    end.
Proof.
  unfold Result_match. intros Hm H.
  destruct (unary f_ok) as [g_ok|]; [|discriminate].
  destruct (unary f_err) as [g_err|]; [|discriminate].
  exists g_ok, g_err. repeat split.
  injection Hm as <-.
  destruct o as [[v|e]]; cbn;
    unfold is_ok, Result_get0, Result_get1, holds_alternative, get, bind, ret;
    rewrite ?(load_live _ _ _ H); cbn; rewrite ?(load_live _ _ _ H); reflexivity.
Qed.

Lemma calls_after_invoke {O} s args (f : body O R) (c : config O) s' :
  times_called s' (calls (snd (invoke s args f c)))
  = times_called s' (calls c) + (if decide (s = s') then 1 else 0).
Proof. rewrite invoke_run. cbn. apply times_called_app. Qed.
End match_facts.

Section match_claims.
Context {T E R : Type}.

Lemma Option_match_compiles (f_some f_none : callable (Option T) T R) g_none :
  nullary f_none = Some g_none ->
  is_Some (unary f_some) \/ is_Some (nullary f_some) ->
  exists m, Option_match f_some f_none = Some m.
Proof.
  intros Hn Hf. unfold Option_match. rewrite Hn.
  destruct (unary f_some); [eauto|].
  destruct Hf as [[? ?]|[g Hg]]; [discriminate|]. rewrite Hg. eauto.
Qed.

Lemma Result_match_compiles (f_ok : callable (Result T E) T R)
    (f_err : callable (Result T E) E R) g_ok g_err :
  unary f_ok = Some g_ok -> unary f_err = Some g_err ->
  exists m, Result_match f_ok f_err = Some m.
Proof. intros Hok Herr. unfold Result_match. rewrite Hok, Herr. eauto. Qed.

Lemma one_call_counts {O} s args (g : body O R) (c : config O) s' :
  times_called s' (calls (snd (one_call s args g c)))
  = times_called s' (calls c) + (if decide (s = s') then 1 else 0).
Proof. unfold one_call. cbn. apply times_called_app. Qed.

(** C5. Whenever the callables fit, [match] is there, and what it does is
    one run of the body of the callable of the container's state, and
    nothing else.  [Option::match] on a container that holds a value: the
    outcome and the world are those of one run of the body of the first
    callable (called with the value when it takes one, with nothing
    otherwise), whatever the second callable is; one call of the first is
    on record and none of the second.  On an empty container: one run of
    the body of the second callable, whatever the first is; one call of the
    second on record and none of the first.  [Result::match] likewise: the
    body of the first callable on a value, of the second on an error. *)
Theorem match_mutual_exclusivity :
  (forall (f_some f_none : callable (Option T) T R) g_none this c o,
      nullary f_none = Some g_none ->
      is_Some (unary f_some) \/ is_Some (nullary f_some) ->
      mem (the_world c) !! this = Some o ->
      exists m, Option_match f_some f_none = Some m
        /\ (index (Option_value o) = 1 ->
              (forall g, unary f_some = Some g ->
                 m this c
                 = one_call first_callable [Place this 1]
                     (g (Lvalue (Place this 1))) c)
              /\ (unary f_some = None -> forall g, nullary f_some = Some g ->
                    m this c = one_call first_callable [] g c)
              /\ times_called first_callable (calls (snd (m this c)))
                 = S (times_called first_callable (calls c))
              /\ times_called second_callable (calls (snd (m this c)))
                 = times_called second_callable (calls c))
        /\ (index (Option_value o) = 0 ->
              m this c = one_call second_callable [] g_none c
              /\ times_called second_callable (calls (snd (m this c)))
                 = S (times_called second_callable (calls c))
              /\ times_called first_callable (calls (snd (m this c)))
                 = times_called first_callable (calls c)))
  /\ (forall (f_ok : callable (Result T E) T R)
             (f_err : callable (Result T E) E R) g_ok g_err this c o,
        unary f_ok = Some g_ok ->
        unary f_err = Some g_err ->
        mem (the_world c) !! this = Some o ->
        exists m, Result_match f_ok f_err = Some m
          /\ (index (Result_value o) = 0 ->
                m this c
                = one_call first_callable [Place this 0]
                    (g_ok (Lvalue (Place this 0))) c
                /\ times_called first_callable (calls (snd (m this c)))
                   = S (times_called first_callable (calls c))
                /\ times_called second_callable (calls (snd (m this c)))
                   = times_called second_callable (calls c))
          /\ (index (Result_value o) = 1 ->
                m this c
                = one_call second_callable [Place this 1]
                    (g_err (Lvalue (Place this 1))) c
                /\ times_called second_callable (calls (snd (m this c)))
                   = S (times_called second_callable (calls c))
                /\ times_called first_callable (calls (snd (m this c)))
                   = times_called first_callable (calls c))).
Proof.
  split.
  - intros f_some f_none g_none this c o Hn Hf H.
    destruct (Option_match_compiles _ _ _ Hn Hf) as [m Hm].
    exists m. split; [exact Hm|].
    destruct (Option_match_run _ _ _ _ _ _ Hm H) as (g_none' & Hn' & Hrun).
    rewrite Hn in Hn'. injection Hn' as <-.
    destruct o as [[u|v]]; cbn in *; (split; [intros Hi | intros Hi]);
      try discriminate.
    + rewrite Hrun, invoke_run. fold (one_call second_callable [] g_none c).
      rewrite !one_call_counts.
      repeat split; repeat case_decide; try congruence; lia.
    + destruct (unary f_some) as [g1|];
        [| destruct (nullary f_some) as [g0|]; [|contradiction]];
        rewrite Hrun, invoke_run.
      * fold (one_call first_callable [Place this 1]
                (g1 (Lvalue (Place this 1))) c).
        rewrite !one_call_counts.
        repeat split; try discriminate;
          try (intros g [= <-]; reflexivity);
          repeat case_decide; try congruence; lia.
      * fold (one_call first_callable [] g0 c).
        rewrite !one_call_counts.
        repeat split; try discriminate;
          try (intros _ g [= <-]; reflexivity);
          repeat case_decide; try congruence; lia.
  - intros f_ok f_err g_ok g_err this c o Hok Herr H.
    destruct (Result_match_compiles _ _ _ _ Hok Herr) as [m Hm].
    exists m. split; [exact Hm|].
    destruct (Result_match_run _ _ _ _ _ _ Hm H)
      as (g_ok' & g_err' & Hok' & Herr' & Hrun).
    rewrite Hok in Hok'. injection Hok' as <-.
    rewrite Herr in Herr'. injection Herr' as <-.
    destruct o as [[v|e]]; cbn in *; (split; [intros Hi | intros Hi]);
      try discriminate; rewrite Hrun, invoke_run.
    + fold (one_call first_callable [Place this 0]
              (g_ok (Lvalue (Place this 0))) c).
      rewrite !one_call_counts.
      repeat split; repeat case_decide; try congruence; lia.
    + fold (one_call second_callable [Place this 1]
              (g_err (Lvalue (Place this 1))) c).
      rewrite !one_call_counts.
      repeat split; repeat case_decide; try congruence; lia.
Qed.

(** C6. [Option::match] is there whenever its second callable can be called
    with nothing and its first with the value or with nothing.  On a
    container that holds [v]: a first callable that can be called with a
    [const T&] is called with the reference to the payload, through which
    [v] is read, and one that cannot is called with nothing; which of the
    two is read off the callable itself.  On an empty container the second
    callable is called with nothing.  In each case the outcome of [match]
    is the outcome of the body that ran, and the world after [match] is the
    world that body left. *)
Theorem Option_match_protocol (f_some f_none : callable (Option T) T R)
    g_none this c o :
  nullary f_none = Some g_none ->
  is_Some (unary f_some) \/ is_Some (nullary f_some) ->
  mem (the_world c) !! this = Some o ->
  exists m, Option_match f_some f_none = Some m
    /\ (forall v, Option_value o = in_place_index1 v ->
          (forall g, unary f_some = Some g ->
             let r : lvalue const T := Lvalue (Place this 1) in
             Option_read r c = (Returns v, c)
             /\ m this c
                = (fst (g r (the_world c)),
                   Config (snd (g r (the_world c)))
                     (calls c ++ [Invocation first_callable [place_of r]])))
          /\ (unary f_some = None -> forall g, nullary f_some = Some g ->
                m this c
                = (fst (g (the_world c)),
                   Config (snd (g (the_world c)))
                     (calls c ++ [Invocation first_callable []]))))
    /\ (index (Option_value o) = 0 ->
          m this c
          = (fst (g_none (the_world c)),
             Config (snd (g_none (the_world c)))
               (calls c ++ [Invocation second_callable []]))).
Proof.
  intros Hn Hf H.
  destruct (Option_match_compiles _ _ _ Hn Hf) as [m Hm].
  exists m. split; [exact Hm|].
  destruct (Option_match_run _ _ _ _ _ _ Hm H) as (g_none' & Hn' & Hrun).
  rewrite Hn in Hn'. injection Hn' as <-.
  destruct o as [[u|x]]; cbn in *; split; try discriminate.
  - intros _. rewrite Hrun. apply invoke_run.
  - intros v [= <-]. split.
    + intros g Hg. rewrite Hg in Hrun. split.
      * apply (Option_present_run x this c H).
      * rewrite Hrun. apply invoke_run.
    + intros Hu g Hg. rewrite Hu, Hg in Hrun. rewrite Hrun. apply invoke_run.
Qed.
End match_claims.

(** ** Pointer semantics *)

Section deref_claims.
Context {T E : Type}.

Lemma bind_ret_outcome {O X Y} (m : M O X) (f : X -> Y) (c : config O) :
  (x <- m ;; ret (f x)) c = (outcome_map f (fst (m c)), snd (m c)).
Proof. unfold bind, ret. destruct (m c) as [[x| |e] c']; reflexivity. Qed.

(** C8. On both containers, in every state: [operator*] does what
    [unwrap()] does, with the same outcome (the same reference, or the
    same abort) and the same final configuration (so the same line on
    [std::cerr]); [operator->] likewise, its pointer being the address of
    the reference [unwrap()] returns. *)
Theorem deref_is_unwrap :
  (forall this (c : config (Option T)),
      Option_operator_star this c = Option_unwrap this c
      /\ Option_operator_star_const this c = Option_unwrap_const this c
      /\ Option_operator_arrow this c
         = (outcome_map addressof (fst (Option_unwrap this c)),
            snd (Option_unwrap this c))
      /\ Option_operator_arrow_const this c
         = (outcome_map addressof (fst (Option_unwrap_const this c)),
            snd (Option_unwrap_const this c)))
  /\ (forall this (c : config (Result T E)),
        Result_operator_star this c = Result_unwrap this c
        /\ Result_operator_star_const this c = Result_unwrap_const this c
        /\ Result_operator_arrow this c
           = (outcome_map addressof (fst (Result_unwrap this c)),
              snd (Result_unwrap this c))
        /\ Result_operator_arrow_const this c
           = (outcome_map addressof (fst (Result_unwrap_const this c)),
              snd (Result_unwrap_const this c))).
Proof.
  split; intros this c; repeat split; try reflexivity;
    unfold Option_operator_arrow, Option_operator_arrow_const,
      Result_operator_arrow, Result_operator_arrow_const;
    apply bind_ret_outcome.
Qed.
End deref_claims.

(** ** What the member functions leave unchanged *)

(** Settle [frame] for a member function of the object at [this], by the
    cases of what is stored there. *)
Ltac frame_by_cases this :=
  let c := fresh "c" in
  let o := fresh "o" in
  let Hl := fresh "Hl" in
  intros c;
  destruct (mem (the_world c) !! this) as [o|] eqn:Hl;
  [destruct o as [[?|?]]|];
  run_on Hl;
  (split; [reflexivity | intros ? ?; reflexivity || discriminate]).

Section write_facts.
Context {O A B : Type}.
Variable member : O -> variant A B.
Variable with_member : variant A B -> O.
Hypothesis member_with_member : forall v, member (with_member v) = v.

(** An assignment through a reference keeps every object alive and in the
    alternative it was in. *)
Lemma write0_keeps_alternative (r : lvalue mut A) x (c c' : config O) :
  write0 member with_member r x c = (Returns tt, c') ->
  forall a o, mem (the_world c) !! a = Some o ->
    exists o', mem (the_world c') !! a = Some o'
               /\ index (member o') = index (member o).
Proof using member_with_member.
  destruct r as [[b i]]. unfold write0, bind, load, overwrite. cbn.
  destruct (mem (the_world c) !! b) as [ob|] eqn:Hl; [|discriminate].
  destruct i as [|i]; destruct (member ob) as [y|y] eqn:Hm;
    try discriminate.
  rewrite Hl. intros [= <-] a o Ha.
  destruct (decide (a = b)) as [->|Hne].
  - rewrite Hl in Ha. injection Ha as <-.
    eexists. split; [apply lookup_put|].
    rewrite member_with_member, Hm. reflexivity.
  - exists o. split; [|reflexivity].
    unfold put. cbn. rewrite lookup_insert_ne by congruence. exact Ha.
Qed.

Lemma write1_keeps_alternative (r : lvalue mut B) x (c c' : config O) :
  write1 member with_member r x c = (Returns tt, c') ->
  forall a o, mem (the_world c) !! a = Some o ->
    exists o', mem (the_world c') !! a = Some o'
               /\ index (member o') = index (member o).
Proof using member_with_member.
  destruct r as [[b i]]. unfold write1, bind, load, overwrite. cbn.
  destruct (mem (the_world c) !! b) as [ob|] eqn:Hl; [|discriminate].
  destruct i as [|[|i]]; destruct (member ob) as [y|y] eqn:Hm;
    try discriminate.
  rewrite Hl. intros [= <-] a o Ha.
  destruct (decide (a = b)) as [->|Hne].
  - rewrite Hl in Ha. injection Ha as <-.
    eexists. split; [apply lookup_put|].
    rewrite member_with_member, Hm. reflexivity.
  - exists o. split; [|reflexivity].
    unfold put. cbn. rewrite lookup_insert_ne by congruence. exact Ha.
Qed.
(** What was assigned through a reference is what is read through it. *)
Lemma write0_then_read (r : lvalue mut A) x (c c' : config O) :
  write0 member with_member r x c = (Returns tt, c') ->
  read0 member r c' = (Returns x, c').
Proof using member_with_member.
  destruct r as [[b i]]. unfold write0, read0, bind, load, overwrite. cbn.
  destruct (mem (the_world c) !! b) as [ob|] eqn:Hl; [|discriminate].
  destruct i as [|i]; destruct (member ob) as [y|y]; try discriminate.
  rewrite Hl. intros [= <-].
  rewrite lookup_put, member_with_member. reflexivity.
Qed.

Lemma write1_then_read (r : lvalue mut B) x (c c' : config O) :
  write1 member with_member r x c = (Returns tt, c') ->
  read1 member r c' = (Returns x, c').
Proof using member_with_member.
  destruct r as [[b i]]. unfold write1, read1, bind, load, overwrite. cbn.
  destruct (mem (the_world c) !! b) as [ob|] eqn:Hl; [|discriminate].
  destruct i as [|[|i]]; destruct (member ob) as [y|y]; try discriminate.
  rewrite Hl. intros [= <-].
  rewrite lookup_put, member_with_member. reflexivity.
Qed.
End write_facts.

Section Option_frame.
Context {T : Type}.
Implicit Types (this : addr) (d : T) (msg : string).

Lemma Option_queries_frame this d :
  frame (is_some (T:=T) this) /\ frame (is_none (T:=T) this)
  /\ frame (Option_operator_bool (T:=T) this) /\ frame (unwrap_or this d).
Proof. split; [|split; [|split]]; frame_by_cases this. Qed.

Lemma Option_accessors_frame this msg :
  frame (Option_unwrap (T:=T) this) /\ frame (Option_unwrap_const (T:=T) this)
  /\ frame (Option_expect (T:=T) this msg)
  /\ frame (Option_operator_star (T:=T) this)
  /\ frame (Option_operator_star_const (T:=T) this)
  /\ frame (Option_operator_arrow (T:=T) this)
  /\ frame (Option_operator_arrow_const (T:=T) this).
Proof.
  split; [|split; [|split; [|split; [|split; [|split]]]]];
    frame_by_cases this.
Qed.

Lemma Option_match_frame {R} (f_some f_none : callable (Option T) T R) m :
  Option_match f_some f_none = Some m ->
  callable_frame f_some -> callable_frame f_none ->
  forall this c, mem (the_world (snd (m this c))) = mem (the_world c).
Proof.
  intros Hm [Hf1 Hf0] [_ Hg0] this c.
  destruct (mem (the_world c) !! this) as [o|] eqn:Hl.
  - destruct (Option_match_run _ _ _ _ _ _ Hm Hl) as (g_none & Hn & Hrun).
    destruct o as [[u|v]]; cbn in Hrun.
    + rewrite Hrun, invoke_run. apply (Hg0 _ Hn).
    + destruct (unary f_some) as [g|] eqn:Hu;
        [|destruct (nullary f_some) as [g|] eqn:Hn0; [|contradiction]];
        rewrite Hrun, invoke_run.
      * apply (Hf1 _ eq_refl).
      * apply (Hf0 _ eq_refl).
  - unfold Option_match in Hm.
    destruct (nullary f_none); [|discriminate].
    destruct (unary f_some); [|destruct (nullary f_some); [|discriminate]];
      injection Hm as <-; run_on Hl; reflexivity.
Qed.

Lemma Option_assign_live this (o o' : Option T) c :
  mem (the_world c) !! this = Some o ->
  Option_assign this o' c = (Returns tt, put this o' c).
Proof. intros H. run_on H. reflexivity. Qed.
End Option_frame.

Section Result_frame.
Context {T E : Type}.
Implicit Types (this : addr) (msg : string).

Lemma Result_queries_frame this :
  frame (is_ok (T:=T) (E:=E) this) /\ frame (is_err (T:=T) (E:=E) this)
  /\ frame (Result_operator_bool (T:=T) (E:=E) this).
Proof. split; [|split]; frame_by_cases this. Qed.

Lemma Result_accessors_frame this msg :
  frame (Result_unwrap (T:=T) (E:=E) this)
  /\ frame (Result_unwrap_const (T:=T) (E:=E) this)
  /\ frame (Result_expect (T:=T) (E:=E) this msg)
  /\ frame (unwrap_err (T:=T) (E:=E) this)
  /\ frame (Result_operator_star (T:=T) (E:=E) this)
  /\ frame (Result_operator_star_const (T:=T) (E:=E) this)
  /\ frame (Result_operator_arrow (T:=T) (E:=E) this)
  /\ frame (Result_operator_arrow_const (T:=T) (E:=E) this).
Proof.
  split; [|split; [|split; [|split; [|split; [|split; [|split]]]]]];
    frame_by_cases this.
Qed.

Lemma Result_match_frame {R} (f_ok : callable (Result T E) T R)
    (f_err : callable (Result T E) E R) m :
  Result_match f_ok f_err = Some m ->
  callable_frame f_ok -> callable_frame f_err ->
  forall this c, mem (the_world (snd (m this c))) = mem (the_world c).
Proof.
  intros Hm [Hf1 _] [Hg1 _] this c.
  destruct (mem (the_world c) !! this) as [o|] eqn:Hl.
  - destruct (Result_match_run _ _ _ _ _ _ Hm Hl)
      as (g_ok & g_err & Hok & Herr & Hrun).
    destruct o as [[v|e]]; cbn in Hrun; rewrite Hrun, invoke_run.
    + apply (Hf1 _ Hok).
    + apply (Hg1 _ Herr).
  - unfold Result_match in Hm.
    destruct (unary f_ok); [|discriminate].
    destruct (unary f_err); [|discriminate].
    injection Hm as <-. run_on Hl. reflexivity.
Qed.

Lemma Result_assign_live this (o o' : Result T E) c :
  mem (the_world c) !! this = Some o ->
  Result_assign this o' c = (Returns tt, put this o' c).
Proof. intros H. run_on H. reflexivity. Qed.
End Result_frame.

Section frame_claim.
Context {T E R : Type}.

(** C9, as the code has it. No query or accessor of either container
    writes to an object, and one that returns leaves the whole
    configuration as it was: [is_some], [is_none], [is_ok], [is_err], the
    conversions to [bool], [unwrap_or], [unwrap], [expect], [unwrap_err],
    [operator*] and [operator->].  [match] writes to no object itself:
    with callables that write to none, every object is after [match] what
    it was before.  An assignment through the reference that the
    non-const [unwrap], [expect], [unwrap_err], [operator*] and
    [operator->] return overwrites the payload in place (what was assigned
    is read back) and keeps every container in the alternative it was in;
    the assignment of a whole container replaces it. *)
Theorem accessors_frame :
  (forall this (d : T) msg,
      frame (is_some (T:=T) this) /\ frame (is_none (T:=T) this)
      /\ frame (Option_operator_bool (T:=T) this)
      /\ frame (unwrap_or this d)
      /\ frame (Option_unwrap (T:=T) this)
      /\ frame (Option_unwrap_const (T:=T) this)
      /\ frame (Option_expect (T:=T) this msg)
      /\ frame (Option_operator_star (T:=T) this)
      /\ frame (Option_operator_star_const (T:=T) this)
      /\ frame (Option_operator_arrow (T:=T) this)
      /\ frame (Option_operator_arrow_const (T:=T) this))
  /\ (forall (f_some f_none : callable (Option T) T R) m,
        Option_match f_some f_none = Some m ->
        callable_frame f_some -> callable_frame f_none ->
        forall this c, mem (the_world (snd (m this c))) = mem (the_world c))
  /\ (forall (r : lvalue mut T) x c c',
        Option_write r x c = (Returns tt, c') ->
        Option_read r c' = (Returns x, c')
        /\ forall a o, mem (the_world c) !! a = Some o ->
             exists o', mem (the_world c') !! a = Some o'
                        /\ index (Option_value o') = index (Option_value o))
  /\ (forall this (o o' : Option T) c,
        mem (the_world c) !! this = Some o ->
        Option_assign this o' c = (Returns tt, put this o' c))
  /\ (forall this msg,
        frame (is_ok (T:=T) (E:=E) this) /\ frame (is_err (T:=T) (E:=E) this)
        /\ frame (Result_operator_bool (T:=T) (E:=E) this)
        /\ frame (Result_unwrap (T:=T) (E:=E) this)
        /\ frame (Result_unwrap_const (T:=T) (E:=E) this)
        /\ frame (Result_expect (T:=T) (E:=E) this msg)
        /\ frame (unwrap_err (T:=T) (E:=E) this)
        /\ frame (Result_operator_star (T:=T) (E:=E) this)
        /\ frame (Result_operator_star_const (T:=T) (E:=E) this)
        /\ frame (Result_operator_arrow (T:=T) (E:=E) this)
        /\ frame (Result_operator_arrow_const (T:=T) (E:=E) this))
  /\ (forall (f_ok : callable (Result T E) T R)
             (f_err : callable (Result T E) E R) m,
        Result_match f_ok f_err = Some m ->
        callable_frame f_ok -> callable_frame f_err ->
        forall this c, mem (the_world (snd (m this c))) = mem (the_world c))
  /\ (forall (r : lvalue mut T) x (c c' : config (Result T E)),
        Result_write r x c = (Returns tt, c') ->
        Result_read r c' = (Returns x, c')
        /\ forall a o, mem (the_world c) !! a = Some o ->
             exists o', mem (the_world c') !! a = Some o'
                        /\ index (Result_value o') = index (Result_value o))
  /\ (forall (r : lvalue mut E) x (c c' : config (Result T E)),
        Result_write_err r x c = (Returns tt, c') ->
        Result_read_err r c' = (Returns x, c')
        /\ forall a o, mem (the_world c) !! a = Some o ->
             exists o', mem (the_world c') !! a = Some o'
                        /\ index (Result_value o') = index (Result_value o))
  /\ (forall this (o o' : Result T E) c,
        mem (the_world c) !! this = Some o ->
        Result_assign this o' c = (Returns tt, put this o' c)).
Proof.
  split; [|split; [|split; [|split; [|split; [|split; [|split; [|split]]]]]]].
  - intros this d msg.
    destruct (Option_queries_frame (T:=T) this d) as (? & ? & ? & ?).
    destruct (Option_accessors_frame (T:=T) this msg)
      as (? & ? & ? & ? & ? & ? & ?).
    repeat (split; [assumption|]). assumption.
  - intros f_some f_none m. apply Option_match_frame.
  - intros r x c c' H. split.
    + apply (write1_then_read Option_value mkOption (fun v => eq_refl) _ _ _ _ H).
    + apply (write1_keeps_alternative Option_value mkOption (fun v => eq_refl)
               _ _ _ _ H).
  - apply Option_assign_live.
  - intros this msg.
    destruct (Result_queries_frame (T:=T) (E:=E) this) as (? & ? & ?).
    destruct (Result_accessors_frame (T:=T) (E:=E) this msg)
      as (? & ? & ? & ? & ? & ? & ? & ?).
    repeat (split; [assumption|]). assumption.
  - intros f_ok f_err m. apply Result_match_frame.
  - intros r x c c' H. split.
    + apply (write0_then_read Result_value mkResult (fun v => eq_refl) _ _ _ _ H).
    + apply (write0_keeps_alternative Result_value mkResult (fun v => eq_refl)
               _ _ _ _ H).
  - intros r x c c' H. split.
    + apply (write1_then_read Result_value mkResult (fun v => eq_refl) _ _ _ _ H).
    + apply (write1_keeps_alternative Result_value mkResult (fun v => eq_refl)
               _ _ _ _ H).
  - apply Result_assign_live.
Qed.
End frame_claim.

(** ** The scenarios of sample.cpp *)

Example find_user_bob : find_user users "bob" = Some_ 1.
Proof. reflexivity. Qed.

Example find_user_dave : find_user users "dave" = Option_of_monostate None_.
Proof. reflexivity. Qed.

Example match_on_bob :
  (m <- from_option ret (raise invalid_access)
          (Option_match found_at_next not_found) ;; m 1%positive)
    (looked_up "bob")
  = (Returns 2,
     Config (the_world (looked_up "bob"))
       [Invocation first_callable [Place 1%positive 1]]).
Proof. vm_compute. reflexivity. Qed.

Example match_on_dave :
  (m <- from_option ret (raise invalid_access)
          (Option_match found_at_next not_found) ;; m 1%positive)
    (looked_up "dave")
  = (Returns 0,
     Config (the_world (looked_up "dave")) [Invocation second_callable []]).
Proof. vm_compute. reflexivity. Qed.

(** A callable that takes an argument does not do for an empty container's
    branch: the instantiation does not compile. *)
Example match_needs_nullary_second :
  Option_match found_at_next found_at_next = None.
Proof. reflexivity. Qed.

(** ** The contracts at concrete containers *)

Lemma Option_unwrap_contract_witness :
  Option_unwrap 1%positive (looked_up "dave")
  = (Aborted,
     say (diagnostic "called `Option::unwrap()` on a `None` value")
       (looked_up "dave"))
  /\ (r <- Option_unwrap 1%positive ;; Option_read r) (looked_up "bob")
     = (Returns 1, looked_up "bob").
Proof.
  split.
  - exact (proj1 (proj1 (Option_unwrap_contract 1%positive (looked_up "dave")
                           (find_user users "dave") eq_refl) eq_refl)).
  - exact (proj1 (proj2 (proj2 (proj2 (Option_unwrap_contract 1%positive
             (looked_up "bob") (find_user users "bob") eq_refl) 1 eq_refl)))).
Defined.

(** C1 as the specification words it fails on the empty container a failed
    lookup returns: [unwrap()] aborts, but the line it leaves is not the one
    with the message ["called unwrap on an absent value"], and the text
    ["absent"] is nowhere in it. *)
Lemma Option_unwrap_message_counterexample :
  let c := looked_up "dave" in
  mem (the_world c) !! 1%positive = Some (mkOption (in_place_index0 monostate_v))
  /\ fst (Option_unwrap 1%positive c) = Aborted
  /\ cerr (the_world (snd (Option_unwrap 1%positive c)))
     <> diagnostic "called unwrap on an absent value"
  /\ contains "absent" (cerr (the_world (snd (Option_unwrap 1%positive c))))
     = false.
Proof.
  cbv zeta. repeat split.
  intros H. vm_compute in H. discriminate H.
Qed.

Lemma Result_unwrap_contract_witness :
  Result_unwrap 1%positive (holding (Result_of_E_const_ref "divide by zero"))
  = (Aborted,
     say (diagnostic "called `Result::unwrap()` on an `Err` value")
       (holding (Result_of_E_const_ref "divide by zero")))
  /\ unwrap_err 1%positive (holding (Result_of_T_const_ref 5))
     = (Aborted,
        say (diagnostic "called `Result::unwrap_err()` on an `Ok` value")
          (holding (Result_of_T_const_ref 5)))
  /\ (r <- Result_unwrap 1%positive ;; Result_read r)
       (holding (Result_of_T_const_ref 5))
     = (Returns 5, holding (Result_of_T_const_ref 5)).
Proof.
  split; [|split].
  - exact (proj1 (proj1 (Result_unwrap_contract 1%positive
             (holding (Result_of_E_const_ref "divide by zero"))
             (Result_of_E_const_ref "divide by zero") eq_refl)
             "divide by zero" eq_refl)).
  - exact (proj1 (proj2 (Result_unwrap_contract 1%positive
             (holding (Result_of_T_const_ref 5)) (Result_of_T_const_ref 5)
             eq_refl) 5 eq_refl)).
  - exact (proj1 (proj2 (proj2 (proj2 (proj2 (Result_unwrap_contract 1%positive
             (holding (Result_of_T_const_ref 5)) (Result_of_T_const_ref 5)
             eq_refl) 5 eq_refl))))).
Defined.

(** C2 as the specification words it fails on a container that holds an
    error and on one that holds a value: the accessors abort, but the lines
    they leave are not those of the messages
    ["called unwrap on a failure value"] and
    ["called unwrap_err on a success value"]. *)
Lemma Result_unwrap_message_counterexample :
  let c_err := holding (Result_of_ErrValue (fun x => x) (Err "divide by zero")) in
  let c_ok := holding (Result_of_OkValue (fun x => x) (Ok 5)) in
  fst (Result_unwrap 1%positive c_err) = Aborted
  /\ cerr (the_world (snd (Result_unwrap 1%positive c_err)))
     <> diagnostic "called unwrap on a failure value"
  /\ fst (unwrap_err 1%positive c_ok) = Aborted
  /\ cerr (the_world (snd (unwrap_err 1%positive c_ok)))
     <> diagnostic "called unwrap_err on a success value".
Proof.
  cbv zeta. repeat split; intros H; vm_compute in H; discriminate H.
Qed.

Lemma match_mutual_exclusivity_witness :
  (exists m, Option_match found_at_next not_found = Some m
     /\ m 1%positive (looked_up "bob")
        = (Returns 2,
           Config (the_world (looked_up "bob"))
             [Invocation first_callable [Place 1%positive 1]])
     /\ times_called second_callable
          (calls (snd (m 1%positive (looked_up "bob")))) = 0)
  /\ (exists m, Option_match found_somewhere not_found = Some m
        /\ m 1%positive (looked_up "bob")
           = (Returns 100,
              Config (the_world (looked_up "bob"))
                [Invocation first_callable []])
        /\ m 1%positive (looked_up "dave")
           = (Returns 0,
              Config (the_world (looked_up "dave"))
                [Invocation second_callable []])
        /\ times_called first_callable
             (calls (snd (m 1%positive (looked_up "dave")))) = 0)
  /\ (exists m, Result_match doubled text_length = Some m
        /\ m 1%positive (holding (Result_of_T_const_ref 5))
           = (Returns 10,
              Config (the_world (holding (Result_of_T_const_ref 5)))
                [Invocation first_callable [Place 1%positive 0]])
        /\ m 1%positive (holding (Result_of_E_const_ref "divide by zero"))
           = (Returns 14,
              Config (the_world (holding (Result_of_E_const_ref "divide by zero")))
                [Invocation second_callable [Place 1%positive 1]])
        /\ times_called first_callable
             (calls (snd (m 1%positive
                (holding (Result_of_E_const_ref "divide by zero"))))) = 0).
Proof.
  split; [|split].
  - destruct (proj1 (@match_mutual_exclusivity nat string nat)
                found_at_next not_found _ 1%positive (looked_up "bob")
                (find_user users "bob") eq_refl
                (or_introl (ex_intro _ _ eq_refl)) eq_refl)
      as (m & Hm & Hsome & _).
    exists m. split; [exact Hm|].
    destruct (Hsome eq_refl) as (Hrun & _ & _ & Hsecond).
    split; [exact (Hrun _ eq_refl) | exact Hsecond].
  - destruct (proj1 (@match_mutual_exclusivity nat string nat)
                found_somewhere not_found _ 1%positive (looked_up "bob")
                (find_user users "bob") eq_refl
                (or_intror (ex_intro _ _ eq_refl)) eq_refl)
      as (m & Hm & Hsome & _).
    exists m. split; [exact Hm|].
    destruct (Hsome eq_refl) as (_ & Hrun & _ & _).
    split; [exact (Hrun eq_refl _ eq_refl)|].
    destruct (proj1 (@match_mutual_exclusivity nat string nat)
                found_somewhere not_found _ 1%positive (looked_up "dave")
                (find_user users "dave") eq_refl
                (or_intror (ex_intro _ _ eq_refl)) eq_refl)
      as (m' & Hm' & _ & Hnone).
    rewrite Hm in Hm'. injection Hm' as <-.
    destruct (Hnone eq_refl) as (Hrun' & _ & Hfirst).
    split; [exact Hrun' | exact Hfirst].
  - destruct (proj2 (@match_mutual_exclusivity nat string nat)
                doubled text_length _ _ 1%positive
                (holding (Result_of_T_const_ref 5)) (Result_of_T_const_ref 5)
                eq_refl eq_refl eq_refl)
      as (m & Hm & Hok & _).
    exists m. split; [exact Hm|].
    destruct (Hok eq_refl) as (Hrun & _ & _).
    split; [exact Hrun|].
    destruct (proj2 (@match_mutual_exclusivity nat string nat)
                doubled text_length _ _ 1%positive
                (holding (Result_of_E_const_ref "divide by zero"))
                (Result_of_E_const_ref "divide by zero")
                eq_refl eq_refl eq_refl)
      as (m' & Hm' & _ & Herr).
    rewrite Hm in Hm'. injection Hm' as <-.
    destruct (Herr eq_refl) as (Hrun' & _ & Hfirst).
    split; [exact Hrun' | exact Hfirst].
Defined.

Lemma Option_match_protocol_witness :
  (exists m, Option_match found_at_next not_found = Some m
     /\ m 1%positive (looked_up "bob")
        = (Returns 2,
           Config (the_world (looked_up "bob"))
             [Invocation first_callable [Place 1%positive 1]])
     /\ m 1%positive (looked_up "dave")
        = (Returns 0,
           Config (the_world (looked_up "dave"))
             [Invocation second_callable []]))
  /\ (exists m, Option_match found_somewhere not_found = Some m
        /\ m 1%positive (looked_up "bob")
           = (Returns 100,
              Config (the_world (looked_up "bob"))
                [Invocation first_callable []]))
  /\ (exists m, Option_match either_way not_found = Some m
        /\ m 1%positive (looked_up "bob")
           = (Returns 11,
              Config (the_world (looked_up "bob"))
                [Invocation first_callable [Place 1%positive 1]])).
Proof.
  split; [|split].
  - destruct (Option_match_protocol found_at_next not_found _ 1%positive
                (looked_up "bob") (find_user users "bob") eq_refl
                (or_introl (ex_intro _ _ eq_refl)) eq_refl)
      as (m & Hm & Hsome & _).
    exists m. split; [exact Hm|].
    split; [exact (proj2 (proj1 (Hsome 1 eq_refl) _ eq_refl))|].
    destruct (Option_match_protocol found_at_next not_found _ 1%positive
                (looked_up "dave") (find_user users "dave") eq_refl
                (or_introl (ex_intro _ _ eq_refl)) eq_refl)
      as (m' & Hm' & _ & Hnone).
    rewrite Hm in Hm'. injection Hm' as <-. exact (Hnone eq_refl).
  - destruct (Option_match_protocol found_somewhere not_found _ 1%positive
                (looked_up "bob") (find_user users "bob") eq_refl
                (or_intror (ex_intro _ _ eq_refl)) eq_refl)
      as (m & Hm & Hsome & _).
    exists m. split; [exact Hm|].
    exact (proj2 (Hsome 1 eq_refl) eq_refl _ eq_refl).
  - destruct (Option_match_protocol either_way not_found _ 1%positive
                (looked_up "bob") (find_user users "bob") eq_refl
                (or_introl (ex_intro _ _ eq_refl)) eq_refl)
      as (m & Hm & Hsome & _).
    exists m. split; [exact Hm|].
    exact (proj2 (proj1 (Hsome 1 eq_refl) _ eq_refl)).
Defined.

Lemma constantly_frame {O X} n : callable_frame (constantly (O:=O) (X:=X) n).
Proof. split; intros g [= <-]; intros; intro; reflexivity. Qed.

Lemma accessors_frame_witness :
  snd (is_some 1%positive (looked_up "bob")) = looked_up "bob"
  /\ snd (Option_unwrap 1%positive (looked_up "bob")) = looked_up "bob"
  /\ (exists m, Option_match (constantly 7) (constantly 0) = Some m
        /\ mem (the_world (snd (m 1%positive (looked_up "bob"))))
           = mem (the_world (looked_up "bob")))
  /\ (exists o',
        mem (the_world (Config (World "" {[1%positive := Some_ 7]}) []))
          !! 1%positive = Some o'
        /\ index (Option_value o') = index (Option_value (Some_ 1)))
  /\ Option_assign 1%positive Option_None (looked_up "bob")
     = (Returns tt, put 1%positive Option_None (looked_up "bob")).
Proof.
  pose proof (@accessors_frame nat string nat)
    as (Hacc & Hmatch & Hwrite & Hassign & _).
  split; [|split; [|split; [|split]]].
  - exact (proj2 (proj1 (Hacc 1%positive 0 "") (looked_up "bob")) true eq_refl).
  - exact (proj2 (proj1 (proj2 (proj2 (proj2 (proj2 (Hacc 1%positive 0 ""))))) 
             (looked_up "bob")) (Lvalue (Place 1%positive 1)) eq_refl).
  - eexists. split; [reflexivity|].
    exact (Hmatch (constantly 7) (constantly 0) _ eq_refl
             (constantly_frame 7) (constantly_frame 0) 1%positive
             (looked_up "bob")).
  - exact (proj2 (Hwrite (Lvalue (Place 1%positive 1)) 7 (looked_up "bob")
             (Config (World "" {[1%positive := Some_ 7]}) []) eq_refl)
             1%positive (Some_ 1) eq_refl).
  - exact (Hassign 1%positive (Some_ 1) Option_None (looked_up "bob") eq_refl).
Defined.

(** C9 as the specification words it fails on the container a successful
    lookup returns: assigning through the reference that [unwrap()] hands
    out replaces the payload 1 by 7, and no container was assigned. *)
Lemma payload_overwritten_in_place_counterexample :
  let c := looked_up "bob" in
  let program := r <- Option_unwrap 1%positive ;; Option_write r 7 in
  mem (the_world c) !! 1%positive = Some (Some_ 1)
  /\ fst (program c) = Returns tt
  /\ mem (the_world (snd (program c))) !! 1%positive = Some (Some_ 7).
Proof. cbv zeta. repeat split. Qed.

(** * Further properties of the module *)

(** ** The panic handler *)

Section panic_facts.
Context {O A : Type}.

(** X1. Nothing runs after [rs_panic], nor after [panic]: whatever follows
    the call, the outcome is the abort; what was on [std::cerr] is kept and
    ["[Panic] "], the message and a line feed are added to it; no object
    and no record of a call changes. *)
Theorem rs_panic_never_returns (msg : string) (k : unit -> M O A) (c : config O) :
  (u <- rs_panic msg ;; k u) c
  = (Aborted,
     Config (World (cerr (the_world c) +:+ ("[Panic] " +:+ msg +:+ endl))
               (mem (the_world c)))
       (calls c))
  /\ (u <- panic msg ;; k u) c = (u <- rs_panic msg ;; k u) c.
Proof. split; reflexivity. Qed.
End panic_facts.

(** ** expect *)

Section expect_facts.
Context {T E : Type}.

(** X2. [Option::expect(msg)] on an empty container aborts with the
    caller's message on [std::cerr]; on a container that holds [v] it does
    what [unwrap()] does, and [v] is read through what it returns. *)
Theorem Option_expect_contract this msg (c : config (Option T)) o :
  mem (the_world c) !! this = Some o ->
  (index (Option_value o) = 0 ->
     Option_expect this msg c = (Aborted, say (diagnostic msg) c))
  /\ (forall v, Option_value o = in_place_index1 v ->
        Option_expect this msg c = Option_unwrap this c
        /\ (r <- Option_expect this msg ;; Option_read r) c = (Returns v, c)).
Proof.
  intros H. destruct o as [[m|x]]; split; cbn; try discriminate.
  - intros _. run_on H. reflexivity.
  - intros v [= <-]. split; run_on H; reflexivity.
Qed.

(** X3. [Result::expect(msg)] on a container that holds an error aborts
    with the caller's message on [std::cerr]; on a container that holds [v]
    it does what [unwrap()] does, and [v] is read through what it
    returns. *)
Theorem Result_expect_contract this msg (c : config (Result T E)) o :
  mem (the_world c) !! this = Some o ->
  (index (Result_value o) = 1 ->
     Result_expect this msg c = (Aborted, say (diagnostic msg) c))
  /\ (forall v, Result_value o = in_place_index0 v ->
        Result_expect this msg c = Result_unwrap this c
        /\ (r <- Result_expect this msg ;; Result_read r) c = (Returns v, c)).
Proof.
  intros H. destruct o as [[x|e]]; split; cbn; try discriminate.
  - intros v [= <-]. split; run_on H; reflexivity.
  - intros _. run_on H. reflexivity.
Qed.
End expect_facts.

(** ** The two states *)

Section state_facts.
Context {T E : Type}.

(** X4. The queries of an [Option] in each of its two states.  On a
    container that holds a value, [is_some()] and the conversion to [bool]
    answer true and [is_none()] false; on one that holds none, [is_none()]
    answers true and the other two false.  Nothing changes. *)
Theorem Option_state_queries this (c : config (Option T)) o :
  mem (the_world c) !! this = Some o ->
  (forall v, Option_value o = in_place_index1 v ->
     is_some this c = (Returns true, c)
     /\ is_none this c = (Returns false, c)
     /\ Option_operator_bool this c = (Returns true, c))
  /\ (forall u, Option_value o = in_place_index0 u ->
        is_some this c = (Returns false, c)
        /\ is_none this c = (Returns true, c)
        /\ Option_operator_bool this c = (Returns false, c)).
Proof.
  intros H. split; intros x Hx; destruct o as [o]; cbn in Hx; subst o;
    repeat split; run_on H; reflexivity.
Qed.

(** X5. The queries of a [Result] in each of its two states.  On a
    container that holds a value, [is_ok()] and the conversion to [bool]
    answer true and [is_err()] false; on one that holds an error,
    [is_err()] answers true and the other two false.  Nothing changes. *)
Theorem Result_state_queries this (c : config (Result T E)) o :
  mem (the_world c) !! this = Some o ->
  (forall v, Result_value o = in_place_index0 v ->
     is_ok this c = (Returns true, c)
     /\ is_err this c = (Returns false, c)
     /\ Result_operator_bool this c = (Returns true, c))
  /\ (forall e, Result_value o = in_place_index1 e ->
        is_ok this c = (Returns false, c)
        /\ is_err this c = (Returns true, c)
        /\ Result_operator_bool this c = (Returns false, c)).
Proof.
  intros H. split; intros x Hx; destruct o as [o]; cbn in Hx; subst o;
    repeat split; run_on H; reflexivity.
Qed.
End state_facts.

(** ** Construction of a Result *)

Section Result_construction_facts.
Context {T E : Type}.
Implicit Types (this : addr) (c : config (Result T E)) (v : T) (e : E).

(** X7. A [Result] built directly from a value, by copy or by move, is in
    the ok state and holds that value; built directly from an error it is in
    the err state and holds that error. *)
Theorem Result_direct_construction v e this c :
  Forall (fun o =>
      (construct this o ;; is_ok this) c = (Returns true, put this o c)
      /\ (construct this o ;; is_err this) c = (Returns false, put this o c)
      /\ (construct this o ;; r <- Result_unwrap this ;; Result_read r) c
         = (Returns v, put this o c))
    [Result_of_T_const_ref v; Result_of_T_rvalue v]
  /\ Forall (fun o =>
      (construct this o ;; is_err this) c = (Returns true, put this o c)
      /\ (construct this o ;; is_ok this) c = (Returns false, put this o c)
      /\ (construct this o ;; r <- unwrap_err this ;; Result_read_err r) c
         = (Returns e, put this o c))
    [Result_of_E_const_ref e; Result_of_E_rvalue e].
Proof.
  destruct (Result_ok_run v this _ (lookup_put this (Result_of_T_rvalue v) c))
    as (Ho & He & Hu & _ & _ & Hr).
  destruct (Result_err_run e this _ (lookup_put this (Result_of_E_rvalue e) c))
    as (Ho' & He' & _ & _ & Hu' & Hr').
  split; repeat constructor; rewrite ?construct_then; try assumption.
  - rewrite (bind_returns _ _ _ _ _ Hu). apply Hr.
  - rewrite (bind_returns _ _ _ _ _ Hu). apply Hr.
  - rewrite (bind_returns _ _ _ _ _ Hu'). apply Hr'.
  - rewrite (bind_returns _ _ _ _ _ Hu'). apply Hr'.
Qed.
End Result_construction_facts.

Section Ok_unit_facts.
Context {E : Type}.

(** X8. [Ok()] with no argument converts to a [Result<Unit, E>] in the ok
    state, and what it holds compares equal to every [Unit], and unequal to
    none. *)
Theorem Ok_unit_conversion (u : Unit) this (c : config (Result Unit E)) :
  let ok : Result Unit E := Result_of_OkValue (fun x => x) Ok_unit in
  (construct this ok ;; is_ok this) c = (Returns true, put this ok c)
  /\ (construct this ok ;; r <- Result_unwrap this ;; x <- Result_read r ;;
      ret (Unit_eq x u, Unit_ne x u)) c
     = (Returns (true, false), put this ok c).
Proof.
  intros ok.
  destruct (Result_ok_run Unit_v this _ (lookup_put this ok c))
    as (Ho & _ & Hu & _ & _ & Hr).
  split; rewrite construct_then; [assumption|].
  rewrite (bind_returns _ _ _ _ _ Hu), (bind_returns _ _ _ _ _ (Hr _)).
  reflexivity.
Qed.
End Ok_unit_facts.

(** ** Result::match and the instantiations of match *)

Section Result_match_facts.
Context {T E R : Type}.

(** X9. [Result::match] on a container that holds [v] calls its first
    callable with the reference to the value, through which [v] is read; on
    a container that holds [e] it calls its second callable with the
    reference to the error, through which [e] is read.  Either way the
    outcome of [match] is the outcome of the body that ran, and the world
    after [match] is the world that body left. *)
Theorem Result_match_protocol (f_ok : callable (Result T E) T R)
    (f_err : callable (Result T E) E R) m this c o :
  Result_match f_ok f_err = Some m ->
  mem (the_world c) !! this = Some o ->
  (forall v, Result_value o = in_place_index0 v ->
     forall g, unary f_ok = Some g ->
       Result_read (q:=const) (Lvalue (Place this 0)) c = (Returns v, c)
       /\ m this c
          = (fst (g (Lvalue (Place this 0)) (the_world c)),
             Config (snd (g (Lvalue (Place this 0)) (the_world c)))
               (calls c ++ [Invocation first_callable [Place this 0]])))
  /\ (forall e, Result_value o = in_place_index1 e ->
        forall g, unary f_err = Some g ->
          Result_read_err (q:=const) (Lvalue (Place this 1)) c = (Returns e, c)
          /\ m this c
             = (fst (g (Lvalue (Place this 1)) (the_world c)),
                Config (snd (g (Lvalue (Place this 1)) (the_world c)))
                  (calls c ++ [Invocation second_callable [Place this 1]]))).
Proof.
  intros Hm H.
  destruct (Result_match_run _ _ _ _ _ _ Hm H)
    as (g_ok & g_err & Hok & Herr & Hrun).
  destruct o as [[x|x]]; cbn in *; split; try discriminate.
  - intros v [= <-] g Hg. rewrite Hok in Hg. injection Hg as <-. split.
    + apply (Result_ok_run x this c H).
    + rewrite Hrun. apply invoke_run.
  - intros e [= <-] g Hg. rewrite Herr in Hg. injection Hg as <-. split.
    + apply (Result_err_run x this c H).
    + rewrite Hrun. apply invoke_run.
Qed.

End Result_match_facts.

(** ** Checking before dereferencing, and writing through a reference *)

Section deref_facts.
Context {T E : Type}.

(** X12. Checked use does not panic.  When the conversion to [bool] of an
    [Option] answers true, [operator*] and [operator->] return, the
    reference and the pointer to the payload, and nothing goes to
    [std::cerr]; the same for a [Result]. *)
Theorem checked_dereference_returns :
  (forall this (c c' : config (Option T)),
      Option_operator_bool this c = (Returns true, c') ->
      c' = c
      /\ Option_operator_star this c = (Returns (Lvalue (Place this 1)), c)
      /\ Option_operator_arrow this c = (Returns (Pointer (Place this 1)), c))
  /\ (forall this (c c' : config (Result T E)),
        Result_operator_bool this c = (Returns true, c') ->
        c' = c
        /\ Result_operator_star this c = (Returns (Lvalue (Place this 0)), c)
        /\ Result_operator_arrow this c = (Returns (Pointer (Place this 0)), c)).
Proof.
  split; intros this c c';
    destruct (mem (the_world c) !! this) as [[[x|y]]|] eqn:Hl;
    run_on Hl; intros [= <-] || discriminate;
    repeat split; run_on Hl; reflexivity.
Qed.

(** X13. What is assigned through the reference that the non-const
    [unwrap()] returns is what the container holds from then on: on an
    [Option] that holds a value, [unwrap_or] then returns the new value and
    not the default; on a [Result] that holds a value, [unwrap()] then
    leads to the new value, and the container is still in the ok state. *)
Theorem write_through_unwrap :
  (forall this (c : config (Option T)) v x d,
      mem (the_world c) !! this = Some (mkOption (in_place_index1 v)) ->
      (r <- Option_unwrap this ;; Option_write r x ;; unwrap_or this d) c
      = (Returns x, put this (mkOption (in_place_index1 x)) c))
  /\ (forall this (c : config (Result T E)) v x,
        mem (the_world c) !! this = Some (mkResult (in_place_index0 v)) ->
        (r <- Result_unwrap this ;; Result_write r x ;;
         b <- is_ok this ;; r' <- Result_unwrap_const this ;;
         y <- Result_read r' ;; ret (b, y)) c
        = (Returns (true, x), put this (mkResult (in_place_index0 x)) c)).
Proof.
  split.
  - intros this c v x d H.
    destruct (Option_present_run v this c H) as (_ & _ & Hu & _).
    rewrite (bind_returns _ _ _ _ _ Hu).
    assert (Hw : Option_write (Lvalue (Place this 1)) x c
                 = (Returns tt, put this (mkOption (in_place_index1 x)) c))
      by (run_on H; reflexivity).
    rewrite (bind_returns _ _ _ _ _ Hw).
    apply (Option_present_run x this _ (lookup_put this _ c)).
  - intros this c v x H.
    destruct (Result_ok_run v this c H) as (_ & _ & Hu & _).
    rewrite (bind_returns _ _ _ _ _ Hu).
    assert (Hw : Result_write (Lvalue (Place this 0)) x c
                 = (Returns tt, put this (mkResult (in_place_index0 x)) c))
      by (run_on H; reflexivity).
    rewrite (bind_returns _ _ _ _ _ Hw).
    destruct (Result_ok_run x this _ (lookup_put this (mkResult (in_place_index0 x)) c))
      as (Ho & _ & _ & Hc & _ & Hr).
    rewrite (bind_returns _ _ _ _ _ Ho), (bind_returns _ _ _ _ _ Hc),
      (bind_returns _ _ _ _ _ (Hr _)).
    reflexivity.
Qed.
End deref_facts.

(** ** The lookup and the division of sample.cpp *)

Section find_user_facts.

Lemma find_user_from_found i names target k :
  find_user_from i names target = Some_ k
  <-> i <= k /\ names !! (k - i) = Some target
      /\ forall j, j < k - i -> names !! j <> Some target.
Proof.
  revert i. induction names as [|name rest IH]; intros i; cbn.
  - split; [discriminate | intros (_ & H & _); discriminate].
  - destruct (String.eqb name target) eqn:He.
    + apply String.eqb_eq in He. subst name. split.
      * intros [= <-]. replace (i - i) with 0 by lia.
        repeat split; [lia | intros j Hj; lia].
      * intros (Hle & Hk & Hfirst).
        destruct (k - i) as [|d] eqn:Hd.
        -- replace k with i by lia. reflexivity.
        -- exfalso. apply (Hfirst 0); [lia | reflexivity].
    + apply String.eqb_neq in He. rewrite IH. split.
      * intros (Hle & Hk & Hfirst).
        replace (k - i) with (S (k - S i)) by lia.
        repeat split; [lia | exact Hk |].
        intros [|j] Hj; cbn; [congruence | apply Hfirst; lia].
      * intros (Hle & Hk & Hfirst).
        destruct (k - i) as [|d] eqn:Hd; cbn in Hk; [congruence|].
        replace (k - S i) with d by lia.
        repeat split; [lia | exact Hk |].
        intros j Hj. apply (Hfirst (S j)). lia.
Qed.

Lemma find_user_from_missing i names target :
  find_user_from i names target = Option_of_monostate None_
  <-> target ∉ names.
Proof.
  revert i. induction names as [|name rest IH]; intros i; cbn.
  - split; [intros _; apply not_elem_of_nil | reflexivity].
  - rewrite not_elem_of_cons. destruct (String.eqb name target) eqn:He.
    + apply String.eqb_eq in He. subst name.
      split; [discriminate | intros [H _]; congruence].
    + apply String.eqb_neq in He. rewrite IH.
      split; [intros H; split; [congruence | exact H] | intros [_ H]; exact H].
Qed.

(** X14. [find_user] returns [Some(k)] exactly when [k] is the first index
    at which [names] holds [target]. *)
Theorem find_user_first_index names target k :
  find_user names target = Some_ k
  <-> names !! k = Some target
      /\ forall j, j < k -> names !! j <> Some target.
Proof.
  unfold find_user. rewrite find_user_from_found.
  replace (k - 0) with k by lia.
  split; [intros (_ & H & H'); auto | intros (H & H'); repeat split; auto; lia].
Qed.

(** X15. [find_user] returns the empty container exactly when [target] is
    not among [names]; in particular on an empty list. *)
Theorem find_user_none names target :
  (find_user names target = Option_of_monostate None_ <-> target ∉ names)
  /\ find_user [] target = Option_of_monostate None_.
Proof. split; [apply find_user_from_missing | reflexivity]. Qed.

(** X16. Matching the result of a lookup, as [main] does with a [Case] and
    a [DefaultCase]: when [target] is first found at index [k], the first
    callable is called, with a reference through which [k] is read; when
    [target] is not among [names], the second callable is called, with
    nothing. *)
Theorem match_on_lookup {R} (f_found f_missing : callable (Option nat) nat R)
    m names target this c :
  Option_match f_found f_missing = Some m ->
  mem (the_world c) !! this = Some (find_user names target) ->
  (forall k g,
      names !! k = Some target ->
      (forall j, j < k -> names !! j <> Some target) ->
      unary f_found = Some g ->
      Option_read (q:=const) (Lvalue (Place this 1)) c = (Returns k, c)
      /\ m this c
         = invoke first_callable [Place this 1] (g (Lvalue (Place this 1))) c)
  /\ (target ∉ names ->
      forall g, nullary f_missing = Some g ->
        m this c = invoke second_callable [] g c).
Proof.
  intros Hm H. split.
  - intros k g Hk Hfirst Hg.
    unfold find_user in H.
    rewrite (proj2 (find_user_from_found 0 names target k)) in H.
    2:{ replace (k - 0) with k by lia. repeat split; auto; lia. }
    destruct (Option_match_run _ _ _ _ _ _ Hm H) as (g_none & _ & Hrun).
    cbn in Hrun. rewrite Hg in Hrun. split; [|exact Hrun].
    apply (Option_present_run k this c H).
  - intros Hmiss g Hg.
    unfold find_user in H.
    rewrite (proj2 (find_user_from_missing 0 names target) Hmiss) in H.
    destruct (Option_match_run _ _ _ _ _ _ Hm H) as (g_none & Hn & Hrun).
    cbn in Hrun. rewrite Hn in Hg. injection Hg as <-. exact Hrun.
Qed.
End find_user_facts.

Section divide_facts.
Variable f32 : Type.
Variable f32_of_i32 : Z -> f32.
Variable f32_div : f32 -> f32 -> f32.
Local Abbreviation quotient := (divide f32 f32_of_i32 f32_div).

(** X17. [divide(a, b)] with [b] zero is in the err state and holds the
    text ["divide by zero"], so that [unwrap()] on it aborts; with [b] not
    zero it is in the ok state and holds the quotient of the two operands
    converted to [f32]. *)
Theorem divide_states (a b : Z) this (c : config (Result f32 string)) :
  (b = 0%Z ->
     (construct this (quotient a b) ;; is_err this) c
     = (Returns true, put this (quotient a b) c)
     /\ (construct this (quotient a b) ;; r <- unwrap_err this ;; Result_read_err r) c
        = (Returns "divide by zero", put this (quotient a b) c)
     /\ fst ((construct this (quotient a b) ;; Result_unwrap this) c) = Aborted)
  /\ (b <> 0%Z ->
        (construct this (quotient a b) ;; is_ok this) c
        = (Returns true, put this (quotient a b) c)
        /\ (construct this (quotient a b) ;; r <- Result_unwrap this ;; Result_read r) c
           = (Returns (f32_div (f32_of_i32 a) (f32_of_i32 b)),
              put this (quotient a b) c)).
Proof.
  split.
  - intros ->.
    destruct (Result_err_run "divide by zero" this _
                (lookup_put this (quotient a 0) c))
      as (_ & He & Hu & _ & Hue & Hr).
    repeat split; rewrite construct_then.
    + exact He.
    + rewrite (bind_returns _ _ _ _ _ Hue). apply Hr.
    + rewrite Hu. reflexivity.
  - intros Hb. unfold divide.
    destruct (Z.eqb_spec b 0) as [|_]; [contradiction|].
    destruct (Result_ok_run (f32_div (f32_of_i32 a) (f32_of_i32 b)) this _
                (lookup_put this (Result_of_OkValue (fun x => x)
                   (Ok (f32_div (f32_of_i32 a) (f32_of_i32 b)))) c))
      as (Ho & _ & Hu & _ & _ & Hr).
    split; rewrite construct_then; [exact Ho|].
    rewrite (bind_returns _ _ _ _ _ Hu). apply Hr.
Qed.

(** X18. Matching [divide(a, 0)]: the second callable is called, with a
    reference through which ["divide by zero"] is read, and the first
    callable is not called. *)
Theorem match_on_division_by_zero {R}
    (f_ok : callable (Result f32 string) f32 R)
    (f_err : callable (Result f32 string) string R) m (a : Z) this c :
  Result_match f_ok f_err = Some m ->
  mem (the_world c) !! this = Some (quotient a 0) ->
  forall g, unary f_err = Some g ->
    Result_read_err (q:=const) (Lvalue (Place this 1)) c
    = (Returns "divide by zero", c)
    /\ m this c
       = invoke second_callable [Place this 1] (g (Lvalue (Place this 1))) c
    /\ times_called first_callable (calls (snd (m this c)))
       = times_called first_callable (calls c).
Proof.
  intros Hm H g Hg.
  destruct (Result_match_run _ _ _ _ _ _ Hm H)
    as (g_ok & g_err & _ & Herr & Hrun).
  cbn in Hrun. rewrite Hg in Herr. injection Herr as <-.
  repeat split.
  - apply (Result_err_run "divide by zero" this c H).
  - exact Hrun.
  - rewrite Hrun, calls_after_invoke. case_decide; [discriminate | lia].
Qed.
End divide_facts.

(** ** The further properties at concrete containers *)

Lemma Option_expect_contract_witness :
  Option_expect 1%positive "no such user" (looked_up "dave")
  = (Aborted, say (diagnostic "no such user") (looked_up "dave"))
  /\ (r <- Option_expect 1%positive "no such user" ;; Option_read r)
       (looked_up "bob")
     = (Returns 1, looked_up "bob").
Proof.
  split.
  - exact (proj1 (Option_expect_contract 1%positive "no such user"
             (looked_up "dave") (find_user users "dave") eq_refl) eq_refl).
  - exact (proj2 (proj2 (Option_expect_contract 1%positive "no such user"
             (looked_up "bob") (find_user users "bob") eq_refl) 1 eq_refl)).
Defined.

Lemma Result_expect_contract_witness :
  Result_expect 1%positive "no quotient"
    (holding (Result_of_E_const_ref "divide by zero"))
  = (Aborted,
     say (diagnostic "no quotient")
       (holding (Result_of_E_const_ref "divide by zero")))
  /\ (r <- Result_expect 1%positive "no quotient" ;; Result_read r)
       (holding (Result_of_T_const_ref 5))
     = (Returns 5, holding (Result_of_T_const_ref 5)).
Proof.
  split.
  - exact (proj1 (Result_expect_contract 1%positive "no quotient"
             (holding (Result_of_E_const_ref "divide by zero"))
             (Result_of_E_const_ref "divide by zero") eq_refl) eq_refl).
  - exact (proj2 (proj2 (Result_expect_contract 1%positive "no quotient"
             (holding (Result_of_T_const_ref 5)) (Result_of_T_const_ref 5)
             eq_refl) 5 eq_refl)).
Defined.

Lemma Option_state_queries_witness :
  Option_operator_bool 1%positive (looked_up "bob")
  = (Returns true, looked_up "bob")
  /\ is_none 1%positive (looked_up "dave") = (Returns true, looked_up "dave")
  /\ Option_operator_bool 1%positive (looked_up "dave")
     = (Returns false, looked_up "dave").
Proof.
  split.
  - exact (proj2 (proj2 (proj1 (Option_state_queries 1%positive (looked_up "bob")
             (find_user users "bob") eq_refl) 1 eq_refl))).
  - exact (proj2 (proj2 (Option_state_queries 1%positive (looked_up "dave")
             (find_user users "dave") eq_refl) monostate_v eq_refl)).
Defined.

Lemma Result_state_queries_witness :
  Result_operator_bool 1%positive (holding (Result_of_T_const_ref 5))
  = (Returns true, holding (Result_of_T_const_ref 5))
  /\ is_err 1%positive (holding (Result_of_E_const_ref "divide by zero"))
     = (Returns true, holding (Result_of_E_const_ref "divide by zero"))
  /\ Result_operator_bool 1%positive
       (holding (Result_of_E_const_ref "divide by zero"))
     = (Returns false, holding (Result_of_E_const_ref "divide by zero")).
Proof.
  split.
  - exact (proj2 (proj2 (proj1 (Result_state_queries 1%positive
             (holding (Result_of_T_const_ref 5)) (Result_of_T_const_ref 5)
             eq_refl) 5 eq_refl))).
  - exact (proj2 (proj2 (Result_state_queries 1%positive
             (holding (Result_of_E_const_ref "divide by zero"))
             (Result_of_E_const_ref "divide by zero") eq_refl)
             "divide by zero" eq_refl)).
Defined.

Lemma Result_match_protocol_witness :
  exists m, Result_match doubled text_length = Some m
    /\ m 1%positive (holding (Result_of_T_const_ref 5))
       = (Returns 10,
          Config (the_world (holding (Result_of_T_const_ref 5)))
            [Invocation first_callable [Place 1%positive 0]])
    /\ m 1%positive (holding (Result_of_E_const_ref "divide by zero"))
       = (Returns 14,
          Config (the_world (holding (Result_of_E_const_ref "divide by zero")))
            [Invocation second_callable [Place 1%positive 1]]).
Proof.
  eexists. split; [reflexivity|]. split.
  - exact (proj2 (proj1 (Result_match_protocol doubled text_length _ 1%positive
             (holding (Result_of_T_const_ref 5)) (Result_of_T_const_ref 5)
             eq_refl eq_refl) 5 eq_refl _ eq_refl)).
  - exact (proj2 (proj2 (Result_match_protocol doubled text_length _ 1%positive
             (holding (Result_of_E_const_ref "divide by zero"))
             (Result_of_E_const_ref "divide by zero")
             eq_refl eq_refl) "divide by zero" eq_refl _ eq_refl)).
Defined.

Lemma checked_dereference_returns_witness :
  Option_operator_star 1%positive (looked_up "bob")
  = (Returns (Lvalue (Place 1%positive 1)), looked_up "bob")
  /\ Result_operator_arrow 1%positive (holding (Result_of_T_const_ref 5))
     = (Returns (Pointer (Place 1%positive 0)),
        holding (Result_of_T_const_ref 5)).
Proof.
  split.
  - exact (proj1 (proj2 (proj1 (@checked_dereference_returns nat string)
             1%positive (looked_up "bob") (looked_up "bob") eq_refl))).
  - exact (proj2 (proj2 (proj2 (@checked_dereference_returns nat string)
             1%positive (holding (Result_of_T_const_ref 5))
             (holding (Result_of_T_const_ref 5)) eq_refl))).
Defined.

Lemma write_through_unwrap_witness :
  (r <- Option_unwrap 1%positive ;; Option_write r 7 ;; unwrap_or 1%positive 0)
    (looked_up "bob")
  = (Returns 7, put 1%positive (mkOption (in_place_index1 7)) (looked_up "bob")).
Proof.
  exact (proj1 (@write_through_unwrap nat string) 1%positive (looked_up "bob")
           1 7 0 eq_refl).
Defined.

Lemma find_user_first_index_witness :
  find_user users "carol" = Some_ 2.
Proof.
  apply (proj2 (find_user_first_index users "carol" 2)).
  split; [reflexivity|].
  intros [|[|j]] Hj; [discriminate | discriminate | lia].
Defined.

Lemma find_user_none_witness :
  "dave" ∉ users.
Proof.
  apply (proj1 (proj1 (find_user_none users "dave"))). reflexivity.
Defined.

Lemma match_on_lookup_witness :
  exists m, Option_match found_at_next not_found = Some m
    /\ m 1%positive (looked_up "carol")
       = (Returns 3,
          Config (the_world (looked_up "carol"))
            [Invocation first_callable [Place 1%positive 1]])
    /\ m 1%positive (looked_up "dave")
       = (Returns 0,
          Config (the_world (looked_up "dave"))
            [Invocation second_callable []]).
Proof.
  eexists. split; [reflexivity|]. split.
  - refine (proj2 (proj1 (match_on_lookup found_at_next not_found _ users "carol"
             1%positive (looked_up "carol") eq_refl eq_refl) 2 _ eq_refl _ eq_refl)).
    intros [|[|j]] Hj; [discriminate | discriminate | lia].
  - refine (proj2 (match_on_lookup found_at_next not_found _ users "dave"
             1%positive (looked_up "dave") eq_refl eq_refl) _ _ eq_refl).
    apply (proj1 (find_user_from_missing 0 users "dave")). reflexivity.
Defined.

Lemma divide_states_witness :
  (construct 1%positive (divide_unevaluated 7 0) ;;
   r <- unwrap_err 1%positive ;; Result_read_err r) (divided 1 1)
  = (Returns "divide by zero", put 1%positive (divide_unevaluated 7 0) (divided 1 1))
  /\ (construct 1%positive (divide_unevaluated 7 2) ;;
      r <- Result_unwrap 1%positive ;; Result_read r) (divided 1 1)
     = (Returns (7%Z, 2%Z), put 1%positive (divide_unevaluated 7 2) (divided 1 1)).
Proof.
  split.
  - exact (proj1 (proj2 (proj1 (divide_states unevaluated (fun z => (z, 1%Z))
             (fun x y => (fst x, fst y)) 7 0 1%positive (divided 1 1)) eq_refl))).
  - refine (proj2 (proj2 (divide_states unevaluated (fun z => (z, 1%Z))
             (fun x y => (fst x, fst y)) 7 2 1%positive (divided 1 1)) _)).
    discriminate.
Defined.

Lemma match_on_division_by_zero_witness :
  exists m, Result_match numerator minus_one = Some m
    /\ m 1%positive (divided 7 0)
       = (Returns (-1)%Z,
          Config (the_world (divided 7 0))
            [Invocation second_callable [Place 1%positive 1]])
    /\ times_called first_callable (calls (snd (m 1%positive (divided 7 0)))) = 0.
Proof.
  eexists. split; [reflexivity|].
  pose proof (match_on_division_by_zero unevaluated (fun z => (z, 1%Z))
                (fun x y => (fst x, fst y)) numerator minus_one _ 7 1%positive
                (divided 7 0) eq_refl eq_refl _ eq_refl) as (_ & Hrun & Hcalls).
  split; [exact Hrun | exact Hcalls].
Defined.
